(** * ICC Terminal: the paper trading ledger, the market activity filter,
      the agent scheduler and the analysis gateway

    A shallow embedding of the TypeScript sources

    - [src/types.ts]
    - [src/services/paperTradingService.ts]
    - [src/App.tsx] (agent loop, activity filter, execution logic)
    - [src/services/geminiService.ts] (response normalisation, error texts)
    - [src/components/AnalysisView.tsx] (auto-execution effect)
    - [src/components/TradingChart.tsx] (the handle given to the agent)
    - [src/components/MarketTicker.tsx] (merging of ticker messages)
    - [src/services/bridgeService.ts]

    JavaScript numbers are IEEE-754 binary64 values; they are modelled by
    Rocq's primitive floats, whose [+], [-], [*], [/] and comparisons are the
    binary64 operations with round-to-nearest-even, as in JavaScript.
    Sources of non-determinism ([Math.random], [crypto.randomUUID],
    [Date.now]) are explicit arguments. *)

From Stdlib Require Import Floats ZArith Uint63 Ascii.
From stdpp Require Import base option list strings gmap sorting.

Set Warnings "-inexact-float".

Local Open Scope float_scope.

(** ** JavaScript numbers *)

Module Number.

Abbreviation number := float.

(** [n] as a number, for array lengths (exact below 2^53). *)
Definition of_nat (n : nat) : number :=
  PrimFloat.of_uint63 (Uint63.of_Z (Z.of_nat n)).

(** [a >= b] and [a > b]; both are false when an operand is NaN. *)
Definition geb (a b : number) : bool := PrimFloat.leb b a.
Definition gtb (a b : number) : bool := PrimFloat.ltb b a.

(** [Math.floor].  A finite non-zero [x] is [m * 2^e] with [m] in
    [0.5, 1); its 53-bit mantissa is cut at the binary point. *)
Definition floor (x : number) : number :=
  match PrimFloat.classify x with
  | NaN | PInf | NInf | PZero | NZero => x
  | _ =>
    let '(m, e) := FloatOps.Z.frexp x in
    if (53 <=? e)%Z then x
    else
      let neg := PrimFloat.ltb x 0 in
      if (e <=? 0)%Z then (if neg then -1 else 0)
      else
        let mant := Uint63.to_Z (PrimFloat.normfr_mantissa m) in
        let q := Z.shiftr mant (53 - e) in
        let exact := (Z.shiftl q (53 - e) =? mant)%Z in
        let up := if neg then (if exact then q else q + 1)%Z else q in
        let r := PrimFloat.of_uint63 (Uint63.of_Z up) in
        if neg then - r else r
  end.

End Number.
Import Number.

(** ** [src/types.ts] *)

Module Action.
(** [TradeExecution.action]: 'BUY' | 'SELL' | 'WAIT' *)
Inductive t := BUY | SELL | WAIT.
#[global] Instance Action_eq_dec : EqDecision t.
Proof. solve_decision. Defined.
End Action.

Module Side.
(** [TradePosition.type]: 'BUY' | 'SELL' *)
Inductive t := BUY | SELL.
#[global] Instance Side_eq_dec : EqDecision t.
Proof. solve_decision. Defined.
End Side.

Module OrderType.
Inductive t := MARKET | LIMIT | STOP.
End OrderType.

Module TradeExecution.
Record t := mk {
  action : Action.t;
  orderType : OrderType.t;
  entryPrice : number;
  stopLoss : number;
  takeProfit1 : number;
  takeProfit2 : number;
  riskRewardRatio : number;
  suggestedLeverage : number;
  lotSizeCalculation : number;
  confidenceScore : number;
  invalidationLevel : number
}.
End TradeExecution.

Module Status.
Inductive t := OPEN | CLOSED.
Definition is_open (s : t) : bool := match s with OPEN => true | CLOSED => false end.
Definition is_closed (s : t) : bool := match s with CLOSED => true | OPEN => false end.
End Status.

Module CloseReason.
Inductive t := TP | SL | MANUAL.
End CloseReason.

Module TradePosition.
Record t := mk {
  id : string;
  ticket : number;
  asset : string;
  type : Side.t;
  entryPrice : number;
  currentPrice : number;
  sl : number;
  tp : number;
  lots : number;
  openTime : number;
  pnl : number;
  status : Status.t;
  closeReason : option CloseReason.t
}.
End TradePosition.

Module AccountState.
Record t := mk {
  balance : number;
  equity : number;
  marginUsed : number;
  freeMargin : number;
  positions : list TradePosition.t
}.
End AccountState.

Module CandleData.
Record t := mk {
  time : number;
  open : number;
  high : number;
  low : number;
  close : number
}.
End CandleData.

(** ** [src/services/paperTradingService.ts] *)

Module PaperTrading.
Import AccountState.

Definition INITIAL_BALANCE : number := 100000.

(** A listener is a callback; the model names it by a number and records
    every invocation together with the account state it was handed. *)
Definition Listener := nat.

Record Ledger := mkLedger {
  accountState : AccountState.t;
  listeners : list Listener;
  delivered : list (Listener * AccountState.t)
}.

Definition initialLedger : Ledger :=
  mkLedger (AccountState.mk INITIAL_BALANCE INITIAL_BALANCE 0 INITIAL_BALANCE []) [] [].

Definition subscribeToAccountUpdates (listener : Listener) (L : Ledger) : Ledger :=
  mkLedger (accountState L)
           (listeners L ++ [listener])
           (delivered L ++ [(listener, accountState L)]).
Arguments subscribeToAccountUpdates listener%_nat L.

(** The function returned by [subscribeToAccountUpdates]. *)
Definition unsubscribe (listener : Listener) (L : Ledger) : Ledger :=
  match list_find (λ l, l = listener) (listeners L) with
  | Some (index, _) => mkLedger (accountState L) (delete index (listeners L)) (delivered L)
  | None => L
  end.

Definition notifyListeners (L : Ledger) : Ledger :=
  mkLedger (accountState L) (listeners L)
           (delivered L ++ map (λ l, (l, accountState L)) (listeners L)).

Definition floatingPnL (ps : list TradePosition.t) : number :=
  fold_left (λ sum p, sum + TradePosition.pnl p) ps 0.

Definition updateEquity (a : AccountState.t) : AccountState.t :=
  let equity' := balance a + floatingPnL (positions a) in
  AccountState.mk (balance a) equity' (marginUsed a) (equity' - marginUsed a) (positions a).

(** The values [executePaperTrade] draws from its environment:
    [crypto.randomUUID()], [Math.random()] and [Date.now()]. *)
Record Entropy := mkEntropy {
  randomUUID : string;
  random : number;
  now : number
}.

(** [execution.action as 'BUY' | 'SELL'], after the WAIT guard. *)
Definition as_side (a : Action.t) : option Side.t :=
  match a with
  | Action.BUY => Some Side.BUY
  | Action.SELL => Some Side.SELL
  | Action.WAIT => None
  end.

Definition executePaperTrade (env : Entropy) (execution : TradeExecution.t)
    (asset : string) (L : Ledger) : option TradePosition.t * Ledger :=
  match as_side (TradeExecution.action execution) with
  | None => (None, L)
  | Some side =>
    let newPosition :=
      TradePosition.mk
        (randomUUID env)
        (floor (random env * 900000) + 100000)
        asset
        side
        (TradeExecution.entryPrice execution)
        (TradeExecution.entryPrice execution)
        (TradeExecution.stopLoss execution)
        (TradeExecution.takeProfit1 execution)
        (TradeExecution.lotSizeCalculation execution)
        (now env)
        0
        Status.OPEN
        None in
    let a := accountState L in
    let a1 :=
      AccountState.mk
        (balance a) (equity a)
        (marginUsed a
         + (TradePosition.entryPrice newPosition * TradePosition.lots newPosition * 100) / 100)
        (freeMargin a)
        (newPosition :: positions a) in
    (Some newPosition,
     notifyListeners (mkLedger (updateEquity a1) (listeners L) (delivered L)))
  end.

Definition closePosition (id : string) (L : Ledger) : Ledger :=
  let a := accountState L in
  match list_find (λ p, TradePosition.id p = id) (positions a) with
  | None => L
  | Some (posIndex, pos) =>
    let a1 :=
      AccountState.mk
        (balance a + TradePosition.pnl pos) (equity a) (marginUsed a) (freeMargin a)
        (delete posIndex (positions a)) in
    notifyListeners (mkLedger (updateEquity a1) (listeners L) (delivered L))
  end.

(** The body of the [map] callback of [tickMarket]; [r] is the value of
    its call to [Math.random()]. *)
Definition markToMarket (r : number) (pos : TradePosition.t) : TradePosition.t :=
  let volatility := TradePosition.entryPrice pos * 0.0001 in
  let move := (r - 0.5) * volatility in
  let newPrice := TradePosition.currentPrice pos + move in
  let priceDiff := newPrice - TradePosition.entryPrice pos in
  let direction := match TradePosition.type pos with Side.BUY => 1 | Side.SELL => -1 end in
  let pnl := priceDiff * direction * TradePosition.lots pos * 100000 in
  let update st reason :=
    TradePosition.mk
      (TradePosition.id pos) (TradePosition.ticket pos) (TradePosition.asset pos)
      (TradePosition.type pos) (TradePosition.entryPrice pos) newPrice
      (TradePosition.sl pos) (TradePosition.tp pos) (TradePosition.lots pos)
      (TradePosition.openTime pos) pnl st reason in
  let closed reason := update Status.CLOSED (Some reason) in
  let unchanged := update (TradePosition.status pos) (TradePosition.closeReason pos) in
  match TradePosition.type pos with
  | Side.BUY =>
    if PrimFloat.leb newPrice (TradePosition.sl pos) then closed CloseReason.SL
    else if geb newPrice (TradePosition.tp pos) then closed CloseReason.TP
    else unchanged
  | Side.SELL =>
    if geb newPrice (TradePosition.sl pos) then closed CloseReason.SL
    else if PrimFloat.leb newPrice (TradePosition.tp pos) then closed CloseReason.TP
    else unchanged
  end.

(** [random i] is the value of the [i]-th call to [Math.random()] made by
    the tick, one call per position in array order. *)
Definition tickMarket (random : nat → number) (L : Ledger) : Ledger :=
  let a := accountState L in
  if decide (length (positions a) = 0%nat) then L
  else
    let marked := imap (λ i pos, markToMarket (random i) pos) (positions a) in
    let closed := List.filter (λ p, Status.is_closed (TradePosition.status p)) marked in
    let balance' := fold_left (λ b p, b + TradePosition.pnl p) closed (balance a) in
    let remaining := List.filter (λ p, Status.is_open (TradePosition.status p)) marked in
    let a1 := AccountState.mk balance' (equity a) (marginUsed a) (freeMargin a) remaining in
    notifyListeners (mkLedger (updateEquity a1) (listeners L) (delivered L)).

End PaperTrading.


(** ** Properties of the paper trading ledger *)

Module LedgerSpec.
Import AccountState PaperTrading.

(** The account as [updateEquity] leaves it: [equity] holds the number
    that balance + Σ pnl evaluates to (the sum over the open positions taken
    from 0, left to right) and [freeMargin] the number that equity −
    marginUsed evaluates to.  Equality here is identity of binary64 values,
    as [Object.is] compares them: it holds of NaN and NaN. *)
Definition account_invariant (a : AccountState.t) : Prop :=
  equity a = balance a + floatingPnL (positions a)
  ∧ freeMargin a = equity a - marginUsed a.

(** The two account equations compared the way [==] compares numbers:
    an equation with NaN on either side is false. *)
Definition account_equations (a : AccountState.t) : bool :=
  PrimFloat.eqb (equity a) (balance a + floatingPnL (positions a))
  && PrimFloat.eqb (freeMargin a) (equity a - marginUsed a).

(** [!Number.isNaN(x)] *)
Definition is_number (x : number) : bool := negb (PrimFloat.is_nan x).

Definition all_open (ps : list TradePosition.t) : Prop :=
  Forall (λ p, TradePosition.status p = Status.OPEN) ps.

Definition ids (ps : list TradePosition.t) : list string :=
  map TradePosition.id ps.

(** Ledgers that the exported operations can produce.  An identifier from
    [crypto.randomUUID] is one that no open position carries. *)
Inductive reachable : Ledger → Prop :=
| reach_init : reachable initialLedger
| reach_subscribe l L :
    reachable L → reachable (subscribeToAccountUpdates l L)
| reach_unsubscribe l L :
    reachable L → reachable (unsubscribe l L)
| reach_execute env execution asset L :
    reachable L →
    randomUUID env ∉ ids (positions (accountState L)) →
    reachable (executePaperTrade env execution asset L).2
| reach_close id L :
    reachable L → reachable (closePosition id L)
| reach_tick random L :
    reachable L → reachable (tickMarket random L).

(** The stop rule in the order the specification gives it. *)
Definition direction (side : Side.t) : number :=
  match side with Side.BUY => 1 | Side.SELL => -1 end.

Definition contractSize : number := 100000.

Definition stop_rule (side : Side.t) (price stopLoss takeProfit : number)
    : option CloseReason.t :=
  match side with
  | Side.BUY =>
      if PrimFloat.leb price stopLoss then Some CloseReason.SL
      else if geb price takeProfit then Some CloseReason.TP
      else None
  | Side.SELL =>
      if geb price stopLoss then Some CloseReason.SL
      else if PrimFloat.leb price takeProfit then Some CloseReason.TP
      else None
  end.

(** The price a position is marked at when its draw is [r]. *)
Definition marked_price (r : number) (pos : TradePosition.t) : number :=
  TradePosition.currentPrice pos + (r - 0.5) * (TradePosition.entryPrice pos * 0.0001).

Definition triggers (d : number * TradePosition.t) : bool :=
  bool_decide (is_Some (stop_rule (TradePosition.type d.2) (marked_price d.1 d.2)
                                  (TradePosition.sl d.2) (TradePosition.tp d.2))).

(** Each position of a tick paired with its [Math.random()] value. *)
Definition draws (random : nat → number) (ps : list TradePosition.t)
    : list (number * TradePosition.t) :=
  imap (λ i pos, (random i, pos)) ps.

Definition mark (d : number * TradePosition.t) : TradePosition.t :=
  markToMarket d.1 d.2.

(** What [executePaperTrade] does, with the amount added to marginUsed
    left as a parameter. *)
Definition trade_opened (margin : TradeExecution.t → number)
    (env : Entropy) (execution : TradeExecution.t) (asset : string) (L : Ledger) : Prop :=
  let result := executePaperTrade env execution asset L in
  match TradeExecution.action execution with
  | Action.WAIT => result = (None, L)
  | _ =>
    ∃ pos,
      result.1 = Some pos
      ∧ positions (accountState result.2) = pos :: positions (accountState L)
      ∧ TradePosition.entryPrice pos = TradeExecution.entryPrice execution
      ∧ TradePosition.currentPrice pos = TradeExecution.entryPrice execution
      ∧ TradePosition.pnl pos = 0
      ∧ TradePosition.tp pos = TradeExecution.takeProfit1 execution
      ∧ TradePosition.lots pos = TradeExecution.lotSizeCalculation execution
      ∧ TradePosition.status pos = Status.OPEN
      ∧ marginUsed (accountState result.2)
        = marginUsed (accountState L) + margin execution
      ∧ balance (accountState result.2) = balance (accountState L)
      ∧ account_invariant (accountState result.2)
      ∧ listeners result.2 = listeners L
      ∧ delivered result.2
        = delivered L ++ map (λ l, (l, accountState result.2)) (listeners L)
  end.

(** entryPrice × lots *)
Definition margin_product (execution : TradeExecution.t) : number :=
  TradeExecution.entryPrice execution * TradeExecution.lotSizeCalculation execution.

(** (entryPrice × lots × 100) / 100, the expression of the source *)
Definition margin_scaled (execution : TradeExecution.t) : number :=
  (TradeExecution.entryPrice execution * TradeExecution.lotSizeCalculation execution * 100)
  / 100.

(** Sample inputs. *)
Definition eurusd_buy : TradeExecution.t :=
  TradeExecution.mk Action.BUY OrderType.MARKET 1.09 1.08 1.10 1.12 2 1 0.01 80 1.07.

Definition gold_buy : TradeExecution.t :=
  TradeExecution.mk Action.BUY OrderType.MARKET 2000 1990 2000.05 2010 2 1 1 80 1985.

(** A signal whose lot size is NaN, and one whose lot size is huge. *)
Definition nan_lots_buy : TradeExecution.t :=
  TradeExecution.mk Action.BUY OrderType.MARKET 1.09 1.08 1.10 1.12 2 1 nan 80 1.07.

Definition huge_lots_buy : TradeExecution.t :=
  TradeExecution.mk Action.BUY OrderType.MARKET 1.09 1.08 1.10 1.12 2 1 1e308 80 1.07.

Definition entropy1 : Entropy := mkEntropy "1b4e28ba-2fa1-11d2-883f-0016d3cca427" 0.5 1700000000000.
Definition entropy2 : Entropy := mkEntropy "6fa459ea-ee8a-3ca4-894e-db77e160355e" 0.25 1700000060000.

Definition eurusd_ledger : Ledger :=
  (executePaperTrade entropy1 eurusd_buy "EURUSD" (subscribeToAccountUpdates 0%nat initialLedger)).2.

Definition gold_ledger : Ledger :=
  (executePaperTrade entropy2 gold_buy "XAUUSD" eurusd_ledger).2.

End LedgerSpec.

(** ** [src/App.tsx]: the market activity filter *)

Module ActivityFilter.

Definition isMarketActive (candles : list CandleData.t) : bool :=
  if (length candles <? 3)%nat then true
  else
    let ranges :=
      map (λ c, (CandleData.high c - CandleData.low c) / CandleData.open c) candles in
    let avgRange := fold_left (λ a b, a + b) ranges 0 / of_nat (length ranges) in
    let threshold := 0.00015 in
    gtb avgRange threshold.

(** The per-bar range ratio and its average, as the specification words
    them. *)
Definition range_ratio (c : CandleData.t) : number :=
  (CandleData.high c - CandleData.low c) / CandleData.open c.

Definition average (xs : list number) : number :=
  fold_left PrimFloat.add xs 0 / of_nat (length xs).

Definition threshold : number := 0.00015.

(** Sample bars: a range ratio of exactly the threshold, a flat bar and a
    lively one. *)
Definition bar_at_threshold : CandleData.t := CandleData.mk 0 1 0.00015 0 1.
Definition bar_flat : CandleData.t := CandleData.mk 0 2000 2000 2000 2000.
Definition bar_lively : CandleData.t := CandleData.mk 0 2000 2001 1999.5 2000.5.

End ActivityFilter.

(** ** [src/App.tsx]: the agent loop *)

Module Agent.
Import ActivityFilter.

Inductive AgentStatus :=
| IDLE | SCANNING_HTF | SCANNING_MTF | SCANNING_LTF | SCANNING_1m
| ANALYZING | EXECUTING | COOLDOWN.

#[global] Instance AgentStatus_eq_dec : EqDecision AgentStatus.
Proof. solve_decision. Defined.

Record AgentConfig := mkConfig {
  isActive : bool;
  intervalSeconds : number;
  minConfidence : number;
  riskPerTrade : number
}.

Inductive LogType := INFO | SUCCESS | WARNING | ERROR.

(** A log message is a template string; its interpolated values are kept
    as they are instead of being printed. *)
Inductive Piece :=
| Text (s : string)
| Num (x : number)
| Act (a : Action.t).

(** [AgentLog] without [id] and [timestamp], which come from
    [crypto.randomUUID()] and the clock and are never read back. *)
Record AgentLog := mkLog {
  message : list Piece;
  type : LogType
}.

Record MarketSnapshot := mkSnapshot {
  image : string;
  symbol : string;
  timeframe : string;
  currentPrice : number;
  recentCandles : list CandleData.t
}.

(** [AnalysisResult], restricted to the fields the agent loop and the
    analysis view read. *)
Record AnalysisResult := mkResult {
  assetName : string;
  execution : TradeExecution.t
}.

(** The constants of one render of [App] that [runAgentCycle] closes
    over.  A render binds [agentStatus], [agentConfig] and [activeSymbol]
    with [const]; the [runAgentCycle] created by that render, and every
    callback it creates, keeps reading these bindings, whatever the state
    setters do later. *)
Record Closure := mkClosure {
  c_agentStatus : AgentStatus;
  c_agentConfig : AgentConfig;
  c_activeSymbol : string
}.

Inductive Callback :=
| RunAgentCycle (c : Closure)
    (** [runAgentCycle] of the render [c] *)
| ResumeAgent (c : Closure)
    (** the arrow function given to [setTimeout(…, 60000)] in the catch block *)
| ResetTimeframe (tf : string).
    (** [() => chartRef.current?.setTimeframe(tf)] *)

(** A pending [setInterval] (periodic) or [setTimeout] (one-shot). *)
Record Timer := mkTimer {
  handle : nat;
  periodic : bool;
  delay : number;
  callback : Callback
}.

Record App := mkApp {
  agentStatus : AgentStatus;
  agentConfig : AgentConfig;
  agentLogs : list AgentLog;
  analysisResult : option AnalysisResult;
  activeSymbol : string;
  agentTimerRef : option nat;
  chartRef : option string;   (** the mounted chart and its visible timeframe *)
  timers : list Timer;
  nextHandle : nat
}.

(** *** State setters, the log and the timers *)

Definition setAgentStatus (s : AgentStatus) (app : App) : App :=
  mkApp s (agentConfig app) (agentLogs app) (analysisResult app) (activeSymbol app)
        (agentTimerRef app) (chartRef app) (timers app) (nextHandle app).

Definition setAgentConfig (cfg : AgentConfig) (app : App) : App :=
  mkApp (agentStatus app) cfg (agentLogs app) (analysisResult app) (activeSymbol app)
        (agentTimerRef app) (chartRef app) (timers app) (nextHandle app).

Definition setAnalysisResult (r : AnalysisResult) (app : App) : App :=
  mkApp (agentStatus app) (agentConfig app) (agentLogs app) (Some r) (activeSymbol app)
        (agentTimerRef app) (chartRef app) (timers app) (nextHandle app).

Definition addAgentLog (message : list Piece) (type : LogType) (app : App) : App :=
  let newLog := mkLog message type in
  mkApp (agentStatus app) (agentConfig app) (take 50 (newLog :: agentLogs app))
        (analysisResult app) (activeSymbol app)
        (agentTimerRef app) (chartRef app) (timers app) (nextHandle app).

Definition set_agentTimerRef (r : option nat) (app : App) : App :=
  mkApp (agentStatus app) (agentConfig app) (agentLogs app) (analysisResult app)
        (activeSymbol app) r (chartRef app) (timers app) (nextHandle app).

(** [chartRef.current?.setTimeframe(tf)] *)
Definition setTimeframe (tf : string) (app : App) : App :=
  mkApp (agentStatus app) (agentConfig app) (agentLogs app) (analysisResult app)
        (activeSymbol app) (agentTimerRef app)
        (match chartRef app with Some _ => Some tf | None => None end)
        (timers app) (nextHandle app).

Definition add_timer (periodic : bool) (cb : Callback) (delay : number) (app : App)
    : nat * App :=
  let h := nextHandle app in
  (h, mkApp (agentStatus app) (agentConfig app) (agentLogs app) (analysisResult app)
            (activeSymbol app) (agentTimerRef app) (chartRef app)
            (timers app ++ [mkTimer h periodic delay cb]) (S h)).

Definition setInterval := add_timer true.
Definition setTimeout := add_timer false.

Definition clearInterval (h : nat) (app : App) : App :=
  mkApp (agentStatus app) (agentConfig app) (agentLogs app) (analysisResult app)
        (activeSymbol app) (agentTimerRef app) (chartRef app)
        (List.filter (λ t, negb (handle t =? h)%nat) (timers app)) (nextHandle app).

(** [if (agentTimerRef.current) clearInterval(agentTimerRef.current)] *)
Definition clear_agent_timer (app : App) : App :=
  match agentTimerRef app with
  | Some h => clearInterval h app
  | None => app
  end.

(** *** One cycle

    What the awaited calls of one cycle answer: for each of the three
    captures, whether the chart reports ready after the settle delay and
    the snapshot it yields; and the outcome of
    [analyzeMultiTimeframeAgent], a result or the message of the error it
    throws.  A cycle is run to its end in one step. *)
Record Capture := mkCapture {
  ready : bool;
  snapshot : option MarketSnapshot
}.

Record CycleInput := mkInput {
  capture_htf : Capture;
  capture_mtf : Capture;
  capture_1m : Capture;
  analysis : AnalysisResult + string
}.

Definition captureFrame (tf : string) (cap : Capture) (app : App)
    : option MarketSnapshot * App :=
  match chartRef app with
  | None => (None, app)
  | Some _ =>
    let app := setTimeframe tf app in
    let app :=
      if negb (ready cap)
      then addAgentLog [Text "Waiting for "; Text tf; Text " chart data..."] WARNING app
      else app in
    (snapshot cap, app)
  end.

(** STEP 5: Execution Logic *)
Definition executionLogic (c : Closure) (result : AnalysisResult) (app : App) : App :=
  let e := execution result in
  if negb (bool_decide (TradeExecution.action e = Action.WAIT)) then
    if geb (TradeExecution.confidenceScore e) (minConfidence (c_agentConfig c)) then
      let app := setAgentStatus EXECUTING app in
      let app :=
        addAgentLog
          [Text "SCALP SIGNAL: "; Act (TradeExecution.action e); Text " @ ";
           Num (TradeExecution.entryPrice e); Text " (Conf: ";
           Num (TradeExecution.confidenceScore e); Text "%)"]
          SUCCESS app in
      (setTimeout (ResetTimeframe "15m") 2000 app).2
    else
      let app :=
        addAgentLog
          [Text "Signal rejected: Low Confidence (";
           Num (TradeExecution.confidenceScore e); Text "%)."]
          WARNING app in
      setAgentStatus COOLDOWN app
  else
    let app := addAgentLog [Text "Structure Neutral. Waiting for setup..."] INFO app in
    setAgentStatus COOLDOWN app.

(** The catch block of [runAgentCycle]; [message] is [e.message]. *)
Definition handleError (c : Closure) (message : string) (app : App) : App :=
  if bool_decide (message = "RATE_LIMIT") then
    let app :=
      addAgentLog [Text "⚠️ Quota Limit Hit (429). Pausing Agent for 60s..."] ERROR app in
    let app := setAgentStatus COOLDOWN app in
    let app := clear_agent_timer app in
    (setTimeout (ResumeAgent c) 60000 app).2
  else
    let app := addAgentLog [Text "Agent Error: "; Text message] ERROR app in
    setAgentStatus COOLDOWN app.

Definition runAgentCycle (c : Closure) (io : CycleInput) (app : App) : App :=
  if bool_decide (c_agentStatus c = EXECUTING) || bool_decide (chartRef app = None)
  then app
  else
    let app := setAgentStatus SCANNING_HTF app in
    let '(htf, app) := captureFrame "4h" (capture_htf io) app in
    match htf with
    | None => handleError c "Failed to capture HTF" app
    | Some htfSnapshot =>
      let app := setAgentStatus SCANNING_MTF app in
      let '(ltf, app) := captureFrame "15m" (capture_mtf io) app in
      match ltf with
      | None => handleError c "Failed to capture MTF" app
      | Some ltfSnapshot =>
        let app := setAgentStatus SCANNING_1m app in
        let '(vltf, app) := captureFrame "1m" (capture_1m io) app in
        match vltf with
        | None => handleError c "Failed to capture 1m" app
        | Some vltfSnapshot =>
          if negb (isMarketActive (recentCandles vltfSnapshot)) then
            let app :=
              addAgentLog
                [Text "Market Flat (Low Volatility). Skipping API Call to save quota."]
                WARNING app in
            let app := setAgentStatus COOLDOWN app in
            (setTimeout (ResetTimeframe "15m") 1000 app).2
          else
            let app := setAgentStatus ANALYZING app in
            let app :=
              addAgentLog
                [Text "Analyzing Confluence (1m/15m/4H) for ";
                 Text (c_activeSymbol c); Text "..."]
                INFO app in
            match analysis io with
            | inr message => handleError c message app
            | inl result =>
              let app := setAnalysisResult result app in
              executionLogic c result app
            end
        end
      end
    end.

(** *** Timers firing and the agent toggle

    [runAgentCycle()] is asynchronous: the statement after the call, which
    arms the interval, runs when the cycle reaches its first [await].  With
    cycles run in one step, the interval is therefore armed first. *)
Definition start_agent (c : Closure) (io : CycleInput) (app : App) : App :=
  let '(h, app) :=
    setInterval (RunAgentCycle c) (intervalSeconds (c_agentConfig c) * 1000) app in
  let app := set_agentTimerRef (Some h) app in
  runAgentCycle c io app.

Definition run_callback (cb : Callback) (io : CycleInput) (app : App) : App :=
  match cb with
  | RunAgentCycle c => runAgentCycle c io app
  | ResumeAgent c =>
    let app := addAgentLog [Text "Cooldown Complete. Resuming Agent..."] INFO app in
    if isActive (c_agentConfig c) then start_agent c io app else app
  | ResetTimeframe tf => setTimeframe tf app
  end.

(** The timer with handle [h] fires; a one-shot timer is gone afterwards. *)
Definition fire (h : nat) (io : CycleInput) (app : App) : App :=
  match list_find (λ t, handle t = h) (timers app) with
  | None => app
  | Some (_, t) =>
    let app := if periodic t then app else clearInterval h app in
    run_callback (callback t) io app
  end.

(** [toggleAgent] followed by the re-render it causes: the cleanup of the
    previous agent-loop effect, then the effect of the new render, whose
    [runAgentCycle] closes over the new render's constants. *)
Definition toggleAgent (io : CycleInput) (app : App) : App :=
  let prev := agentConfig app in
  let cfg :=
    mkConfig (negb (isActive prev)) (intervalSeconds prev) (minConfidence prev)
             (riskPerTrade prev) in
  let app := setAgentConfig cfg app in
  let app := clear_agent_timer app in
  let c := mkClosure (agentStatus app) cfg (activeSymbol app) in
  if isActive cfg then
    let app :=
      addAgentLog
        [Text "Agent Activated. Initializing Multi-Timeframe Scan (Scalping Mode)..."]
        INFO app in
    start_agent c io app
  else
    let app := clear_agent_timer app in
    let app := setAgentStatus IDLE app in
    addAgentLog [Text "Agent Deactivated."] WARNING app.

(** [App] after its first render and the first run of the agent-loop
    effect (the agent is inactive, the chart is mounted on its
    [DEFAULT_TIMEFRAME], '1h'). *)
Definition mounted : App :=
  mkApp IDLE (mkConfig false 60 75 1)
        [mkLog [Text "Agent Deactivated."] WARNING]
        None "XAUUSD" None (Some "1h") [] 1.

(** *** The execution policy, as the specification words it *)

Inductive Decision := EXECUTE | REJECT_WAIT | REJECT_LOW_CONFIDENCE.

Definition decide (action : Action.t) (confidenceScore minConfidence : number) : Decision :=
  match action with
  | Action.WAIT => REJECT_WAIT
  | _ => if geb confidenceScore minConfidence then EXECUTE else REJECT_LOW_CONFIDENCE
  end.

(** What the agent loop does for each decision. *)
Definition act_on (d : Decision) (e : TradeExecution.t) (app : App) : App :=
  match d with
  | EXECUTE =>
      (setTimeout (ResetTimeframe "15m") 2000
         (addAgentLog
            [Text "SCALP SIGNAL: "; Act (TradeExecution.action e); Text " @ ";
             Num (TradeExecution.entryPrice e); Text " (Conf: ";
             Num (TradeExecution.confidenceScore e); Text "%)"]
            SUCCESS (setAgentStatus EXECUTING app))).2
  | REJECT_LOW_CONFIDENCE =>
      setAgentStatus COOLDOWN
        (addAgentLog
           [Text "Signal rejected: Low Confidence (";
            Num (TradeExecution.confidenceScore e); Text "%)."]
           WARNING app)
  | REJECT_WAIT =>
      setAgentStatus COOLDOWN
        (addAgentLog [Text "Structure Neutral. Waiting for setup..."] INFO app)
  end.

(** *** Sample cycles *)

Definition lively_snapshot (tf : string) : MarketSnapshot :=
  mkSnapshot "data:image/jpeg;base64,/9j/4AAQ" "XAUUSD" tf 2000.5
             [bar_lively; bar_lively; bar_lively].

Definition flat_snapshot (tf : string) : MarketSnapshot :=
  mkSnapshot "data:image/jpeg;base64,/9j/4AAQ" "XAUUSD" tf 2000
             [bar_flat; bar_flat; bar_flat].

Definition cycle_with (a : AnalysisResult + string) : CycleInput :=
  mkInput (mkCapture true (Some (lively_snapshot "4h")))
          (mkCapture true (Some (lively_snapshot "15m")))
          (mkCapture true (Some (lively_snapshot "1m")))
          a.

Definition rate_limited_cycle : CycleInput := cycle_with (inr "RATE_LIMIT").

Definition flat_cycle : CycleInput :=
  mkInput (mkCapture true (Some (lively_snapshot "4h")))
          (mkCapture true (Some (lively_snapshot "15m")))
          (mkCapture true (Some (flat_snapshot "1m")))
          (inr "unused").

Definition buy_80 : AnalysisResult :=
  mkResult "XAUUSD"
    (TradeExecution.mk Action.BUY OrderType.MARKET 2000.5 1998 2005.5 2010 2 1 0.1 80 1997).

Definition buy_cycle : CycleInput := cycle_with (inl buy_80).

End Agent.

(** ** [src/components/AnalysisView.tsx]: the auto-execution effect *)

Module AnalysisView.
Import PaperTrading Agent.

Inductive BridgeStatus := IDLE | SENDING | SUCCESS | FAILED.

#[global] Instance BridgeStatus_eq_dec : EqDecision BridgeStatus.
Proof. solve_decision. Defined.

(** The component's [bridgeStatus] and the ledger of the paper trading
    service it calls. *)
Record View := mkView {
  bridgeStatus : BridgeStatus;
  ledger : Ledger
}.

(** Its [setTimeout(…, 500)] is [bridge_filled]. *)
Definition handlePaperExecute (env : Entropy) (result : AnalysisResult) (v : View) : View :=
  if bool_decide (TradeExecution.action (execution result) = Action.WAIT) then v
  else
    mkView SENDING
           (executePaperTrade env (execution result) (assetName result) (ledger v)).2.

Definition bridge_filled (v : View) : View := mkView SUCCESS (ledger v).

(** The effect on [result, autoExecute]. *)
Definition autoExecution (autoExecute : bool) (env : Entropy) (result : AnalysisResult)
    (v : View) : View :=
  if autoExecute
     && negb (bool_decide (TradeExecution.action (execution result) = Action.WAIT))
     && bool_decide (bridgeStatus v = IDLE)
  then handlePaperExecute env result v
  else v.

End AnalysisView.

(** ** [src/services/geminiService.ts]: normalising the response *)

Module Gemini.

(** The values of a parsed JSON object that the normalisation reads. *)
Inductive JSValue :=
| JUndefined
| JNull
| JBool (b : bool)
| JNumber (x : number)
| JString (s : string).

Abbreviation JSObject := (gmap string JSValue).

Definition truthy (v : JSValue) : bool :=
  match v with
  | JUndefined | JNull => false
  | JBool b => b
  | JNumber x => negb (PrimFloat.eqb x 0) && negb (PrimFloat.is_nan x)
  | JString s => negb (bool_decide (s = ""))
  end.

(** [a || b] *)
Definition or (a b : JSValue) : JSValue := if truthy a then a else b.

(** [o?.k] *)
Definition get (o : option JSObject) (k : string) : JSValue :=
  match o with
  | Some o => default JUndefined (o !! k)
  | None => JUndefined
  end.

(** [JSON.parse(response.text)]: its scalar top-level fields and its
    [execution] object, if it has one. *)
Record Parsed := mkParsed {
  fields : JSObject;
  execution : option JSObject
}.

Record MarketContext := mkContext {
  symbol : string;
  price : number
}.

(** The object the gateway returns (cast to [AnalysisResult] unchecked). *)
Record Result := mkResult {
  r_fields : JSObject;
  r_execution : JSObject
}.

(** What [e.toString()], [e.message] and [e.status] give for a caught
    error. *)
Record Caught := mkCaught {
  toString : string;
  message : option string;
  status : option string
}.

(** What the call to the model yields. *)
Inductive Reply :=
| Rejected (e : Caught)        (** [generateContent] throws *)
| NoText                       (** [response.text] is empty *)
| Unparsable (e : Caught)      (** [JSON.parse] throws *)
| Json (parsed : Parsed).

(** [hay.includes(needle)] *)
Fixpoint includes (needle hay : string) : bool :=
  String.prefix needle hay
  || match hay with
     | EmptyString => false
     | String.String _ hay' => includes needle hay'
     end.

(** The object literal returned by [analyzeCharts]. *)
Definition chartsResult (marketContext : option MarketContext) (parsed : Parsed) : Result :=
  let ctx_symbol :=
    match marketContext with Some m => JString (symbol m) | None => JUndefined end in
  let ctx_price :=
    match marketContext with Some m => JNumber (price m) | None => JUndefined end in
  let pe := execution parsed in
  mkResult
    (<["currentPrice" :=
         or (or (get (Some (fields parsed)) "currentPrice") ctx_price) (JNumber 0)]>
       (<["assetName" := or ctx_symbol (get (Some (fields parsed)) "assetName")]>
          (fields parsed)))
    (default ∅ pe
     ∪ (<["action" := or (get pe "action") (JString "WAIT")]>
          (<["confidenceScore" := or (get pe "confidenceScore") (JNumber 0)]>
             (<["entryPrice" := or (or (get pe "entryPrice") ctx_price) (JNumber 0)]>
                (<["stopLoss" := or (get pe "stopLoss") (JNumber 0)]>
                   (<["takeProfit1" := or (get pe "takeProfit1") (JNumber 0)]> ∅)))))).

Definition analyzeCharts (apiKey : bool) (marketContext : option MarketContext)
    (reply : Reply) : Result + string :=
  if negb apiKey then inr "API Key is missing"
  else
    match reply with
    | Json parsed => inl (chartsResult marketContext parsed)
    | _ =>
      inr "Failed to analyze charts. Please ensure you uploaded a valid trading chart."
    end.

(** The object literal returned by [analyzeMultiTimeframeAgent]. *)
Definition agentResult (data_symbol : string) (data_livePrice : number) (parsed : Parsed)
    : Result :=
  mkResult
    (<["searchPrice" := JNumber 0]>
       (<["currentPrice" := JNumber data_livePrice]>
          (<["assetName" := JString data_symbol]> (fields parsed))))
    (<["entryPrice" := JNumber data_livePrice]> (default ∅ (execution parsed))).

Definition is_rate_limit (e : Caught) : bool :=
  includes "429" (toString e)
  || match message e with Some m => includes "429" m | None => false end
  || bool_decide (status e = Some "RESOURCE_EXHAUSTED").

(** The catch block of [analyzeMultiTimeframeAgent]. *)
Definition rethrow (e : Caught) : string :=
  if is_rate_limit e then "RATE_LIMIT"
  else "Agent failed to correlate timeframes. Please check chart data.".

Definition analyzeMultiTimeframeAgent (apiKey : bool) (data_symbol : string)
    (data_livePrice : number) (reply : Reply) : Result + string :=
  if negb apiKey then inr "API Key is missing"
  else
    match reply with
    | Rejected e => inr (rethrow e)
    | NoText =>
      inr (rethrow (mkCaught "Error: Empty response from AI"
                             (Some "Empty response from AI") None))
    | Unparsable e => inr (rethrow e)
    | Json parsed => inl (agentResult data_symbol data_livePrice parsed)
    end.

(** *** The defaulting the specification asks for *)

Definition absent (o : option JSObject) (k : string) : Prop :=
  match o with Some o => o !! k = None | None => True end.

(** A missing entry price becomes the live price; a missing stop loss or
    take profit becomes 0. *)
Definition monetary_fields_defaulted (livePrice : number)
    (response : option JSObject) (result : JSObject) : Prop :=
  (absent response "entryPrice" → result !! "entryPrice" = Some (JNumber livePrice))
  ∧ (absent response "stopLoss" → result !! "stopLoss" = Some (JNumber 0))
  ∧ (absent response "takeProfit1" → result !! "takeProfit1" = Some (JNumber 0))
  ∧ (absent response "takeProfit2" → result !! "takeProfit2" = Some (JNumber 0)).

(** A response that carries only the two required fields. *)
Definition bare_buy : Parsed :=
  mkParsed (<["assetName" := JString "XAUUSD"]> (<["iccAnalysis" := JString "..."]> ∅))
           (Some (<["action" := JString "BUY"]> (<["confidenceScore" := JNumber 80]> ∅))).

Definition gold_context : MarketContext := mkContext "XAUUSD" 2000.5.

End Gemini.

(** ** Further notions for the ledger *)

Module LedgerFrames.
Import AccountState PaperTrading LedgerSpec.

(** The fields of a position that only [executePaperTrade] writes. *)
Definition same_trade (p q : TradePosition.t) : Prop :=
  TradePosition.id p = TradePosition.id q
  ∧ TradePosition.ticket p = TradePosition.ticket q
  ∧ TradePosition.asset p = TradePosition.asset q
  ∧ TradePosition.type p = TradePosition.type q
  ∧ TradePosition.entryPrice p = TradePosition.entryPrice q
  ∧ TradePosition.sl p = TradePosition.sl q
  ∧ TradePosition.tp p = TradePosition.tp q
  ∧ TradePosition.lots p = TradePosition.lots q
  ∧ TradePosition.openTime p = TradePosition.openTime q.

(** What holds of an account that [updateEquity] has been through: its
    fields are the recomputed values, and the two equations hold under
    [==] exactly when freeMargin is not NaN. *)
Definition account_consistent (a : AccountState.t) : Prop :=
  account_invariant a ∧ account_equations a = is_number (freeMargin a).

(** The calls a state change makes: every listener once, in registration
    order, with the state [a]. *)
Definition broadcast (a : AccountState.t) (ls : list Listener)
    : list (Listener * AccountState.t) :=
  map (λ l, (l, a)) ls.

End LedgerFrames.

(** ** [src/components/AnalysisView.tsx]: a view over time *)

Module AnalysisViewEvents.
Import PaperTrading Agent AnalysisView.

(** What happens to a mounted view: a new [result] (or [autoExecute])
    re-runs the effect; the 500 ms timer of [handlePaperExecute] fires. *)
Inductive Event :=
| Rendered (autoExecute : bool) (env : Entropy) (result : AnalysisResult)
| Filled.

Definition step (v : View) (e : Event) : View :=
  match e with
  | Rendered autoExecute env result => autoExecution autoExecute env result v
  | Filled => bridge_filled v
  end.

Definition run (events : list Event) (v : View) : View := fold_left step events v.

End AnalysisViewEvents.

(** ** Object literals used as tables

    [TIMEFRAME_MAP] and [SYMBOL_MAP] are object literals.  A lookup
    [table[key]] that finds no own property goes on to [Object.prototype]
    and finds its members there: functions, and under [__proto__] an
    accessor that yields the prototype of the object looked into.  All of
    these are truthy. *)

Module ObjectLiteral.

Definition prototype_members : list string :=
  ["constructor"; "hasOwnProperty"; "isPrototypeOf"; "propertyIsEnumerable";
   "toLocaleString"; "toString"; "valueOf";
   "__defineGetter__"; "__defineSetter__"; "__lookupGetter__"; "__lookupSetter__";
   "__proto__"].

Definition inherited (key : string) : bool := bool_decide (key ∈ prototype_members).

End ObjectLiteral.

(** ** [src/components/TradingChart.tsx]: the handle given to the agent *)

Module TradingChart.

Definition TIMEFRAME_MAP : gmap string string :=
  list_to_map [("1m", "1m"); ("5m", "5m"); ("15m", "15m");
               ("1h", "1h"); ("4h", "4h"); ("1d", "1d")].

(** [tf] is a key of [TIMEFRAME_MAP], one of the buttons of the toolbar. *)
Definition listed (tf : string) : bool := bool_decide (is_Some (TIMEFRAME_MAP !! tf)).

(** The state of the component that its handle reads and writes.
    [chart] is whether [chartRef.current] holds a chart. *)
Record Chart := mkChart {
  chart : bool;
  candleBuffer : list CandleData.t;
  activeSymbol : string;
  activeTimeframe : string;
  currentPrice : number;
  isLoading : bool;
  error : option string
}.

(** [TIMEFRAME_MAP[tf]] is truthy: a non-empty string under an own key,
    or a member inherited from [Object.prototype]. *)
Definition supported (tf : string) : bool :=
  match TIMEFRAME_MAP !! tf with
  | Some v => negb (bool_decide (v = ""))
  | None => ObjectLiteral.inherited tf
  end.

Definition setTimeframe (tf : string) (ch : Chart) : Chart :=
  if supported tf
  then mkChart (chart ch) (candleBuffer ch) (activeSymbol ch) tf (currentPrice ch)
               (isLoading ch) (error ch)
  else ch.



(** The buffer update of [ws.onmessage]. *)
Definition updateBuffer (candle : CandleData.t) (buf : list CandleData.t)
    : list CandleData.t :=
  let pushed :=
    let b := buf ++ [candle] in
    if (100 <? length b)%nat then tail b else b in
  match last buf with
  | Some lastBuffered =>
    if PrimFloat.eqb (CandleData.time lastBuffered) (CandleData.time candle)
    then <[(length buf - 1)%nat := candle]> buf
    else pushed
  | None => pushed
  end.

(** [ws.onmessage] for a parsed kline, as far as the handle can see. *)
Definition onmessage (candle : CandleData.t) (ch : Chart) : Chart :=
  mkChart (chart ch) (updateBuffer candle (candleBuffer ch)) (activeSymbol ch)
          (activeTimeframe ch) (CandleData.close candle) (isLoading ch) (error ch).

Definition sample_chart : Chart :=
  mkChart true [ActivityFilter.bar_flat; ActivityFilter.bar_lively] "XAUUSD" "15m" 2000.5
          false None.

End TradingChart.

(** ** Further notions for the agent loop *)

Module AgentSpec.
Import Agent.

(** The same cycle with another answer from the analysis. *)
Definition with_analysis (a : AnalysisResult + string) (io : CycleInput) : CycleInput :=
  mkInput (capture_htf io) (capture_mtf io) (capture_1m io) a.

Definition guard_passes (c : Closure) (app : App) : Prop :=
  c_agentStatus c ≠ EXECUTING ∧ chartRef app ≠ None.

(** The 1m capture that a cycle reaches and finds flat. *)
Definition market_flat (io : CycleInput) : Prop :=
  is_Some (snapshot (capture_htf io))
  ∧ is_Some (snapshot (capture_mtf io))
  ∧ ∃ vltf, snapshot (capture_1m io) = Some vltf
            ∧ ActivityFilter.isMarketActive (recentCandles vltf) = false.

Definition logs_bounded (app : App) : Prop := (length (agentLogs app) ≤ 50)%nat.

(** The callbacks that only show a timeframe satisfying [T]. *)
Definition callback_ok (T : string → Prop) (cb : Callback) : Prop :=
  match cb with
  | ResetTimeframe tf => T tf
  | _ => True
  end.

(** The chart shows a timeframe of [TIMEFRAME_MAP], and no pending timer
    will make it show another. *)
Definition timeframe_supported (app : App) : Prop :=
  (∀ tf, chartRef app = Some tf → TradingChart.listed tf = true)
  ∧ Forall (λ t, callback_ok (λ tf, TradingChart.listed tf = true) (callback t))
           (timers app).

(** The message of the first capture of a cycle that yields no snapshot. *)
Definition capture_failure (io : CycleInput) : option string :=
  match snapshot (capture_htf io) with
  | None => Some "Failed to capture HTF"
  | Some _ =>
    match snapshot (capture_mtf io) with
    | None => Some "Failed to capture MTF"
    | Some _ =>
      match snapshot (capture_1m io) with
      | None => Some "Failed to capture 1m"
      | Some _ => None
      end
    end
  end.

(** What the captures of a cycle leave alone. *)
Definition untouched (app app' : App) : Prop :=
  agentConfig app' = agentConfig app
  ∧ analysisResult app' = analysisResult app
  ∧ activeSymbol app' = activeSymbol app
  ∧ agentTimerRef app' = agentTimerRef app
  ∧ timers app' = timers app
  ∧ nextHandle app' = nextHandle app.

(** The rest of a cycle once its three snapshots are taken. *)
Definition after_captures (c : Closure) (io : CycleInput) (vltf : MarketSnapshot)
    (app : App) : App :=
  if negb (ActivityFilter.isMarketActive (recentCandles vltf)) then
    (setTimeout (ResetTimeframe "15m") 1000
       (setAgentStatus COOLDOWN
          (addAgentLog
             [Text "Market Flat (Low Volatility). Skipping API Call to save quota."]
             WARNING app))).2
  else
    let app :=
      addAgentLog
        [Text "Analyzing Confluence (1m/15m/4H) for "; Text (c_activeSymbol c); Text "..."]
        INFO (setAgentStatus ANALYZING app) in
    match analysis io with
    | inr message => handleError c message app
    | inl result => executionLogic c result (setAnalysisResult result app)
    end.

(** Whether a cycle gets as far as a signal that the policy executes. *)
Definition executes (c : Closure) (io : CycleInput) : bool :=
  match snapshot (capture_htf io), snapshot (capture_mtf io), snapshot (capture_1m io),
        analysis io with
  | Some _, Some _, Some vltf, inl result =>
    ActivityFilter.isMarketActive (recentCandles vltf)
    && match decide (TradeExecution.action (execution result))
                    (TradeExecution.confidenceScore (execution result))
                    (minConfidence (c_agentConfig c)) with
       | EXECUTE => true
       | _ => false
       end
  | _, _, _, _ => false
  end.

Definition no_chart_data : CycleInput :=
  mkInput (mkCapture true (Some (lively_snapshot "4h"))) (mkCapture false None)
          (mkCapture true (Some (lively_snapshot "1m"))) (inl buy_80).

End AgentSpec.

(** ** [src/services/bridgeService.ts] *)

Module Bridge.
Import Agent.

Record BridgeConfig := mkBridge {
  webhookUrl : string;
  apiKey : string;
  isEnabled : bool
}.

Record Payload := mkPayload {
  secret : string;
  ticker : string;
  action : Action.t;
  order_type : OrderType.t;
  price : number;
  sl : number;
  tp1 : number;
  tp2 : number;
  volume : number;
  comment : string
}.

Record Reply := mkReply {
  success : bool;
  message : list Piece;
  tradeId : option (list Piece)
}.

(** The payload it logs. *)
Definition payload (execution : TradeExecution.t) (asset : string) (config : BridgeConfig)
    : Payload :=
  mkPayload (apiKey config) asset
            (TradeExecution.action execution) (TradeExecution.orderType execution)
            (TradeExecution.entryPrice execution) (TradeExecution.stopLoss execution)
            (TradeExecution.takeProfit1 execution) (TradeExecution.takeProfit2 execution)
            (TradeExecution.lotSizeCalculation execution) "ICC_Strategy_AI_Exec".

(** The value its promise resolves to; [random] is the value of
    [Math.random()]. *)
Definition executeTradeOnBridge (random : number) (execution : TradeExecution.t)
    (asset : string) (config : BridgeConfig) : Reply :=
  if negb (isEnabled config) then
    mkReply false [Text "Bridge is disabled in settings."] None
  else if bool_decide (TradeExecution.action execution = Action.WAIT) then
    mkReply false [Text "Signal was WAIT. No trade executed."] None
  else
    mkReply true
            [Text "Order Executed: "; Act (TradeExecution.action execution); Text " ";
             Text asset; Text " @ "; Num (TradeExecution.entryPrice execution)]
            (Some [Text "ORD-"; Num (floor (random * 999999))]).

Definition live_bridge : BridgeConfig :=
  mkBridge "https://api.pineconnector.net/webhook/v1/signal" "sk_live_example_key_12345" true.

End Bridge.

(** ** [src/services/geminiService.ts]: files and error texts *)

Module GeminiText.
Import Gemini.

(** The padding step of [getFileBase64], on the text left after the data
    URL prefix is removed (such text is ASCII, one character per unit of
    [length]). *)
Definition pad (encoded : string) : string :=
  if (0 <? String.length encoded mod 4)%nat
  then encoded +:+ String.string_of_list_ascii
                     (replicate (4 - String.length encoded mod 4) "="%char)
  else encoded.

(** [hay] contains [needle] somewhere. *)
Definition contains (needle hay : string) : Prop :=
  ∃ pre post, hay = pre +:+ needle +:+ post.

End GeminiText.

(** ** [src/components/MarketTicker.tsx] *)

Module MarketTicker.
Import ObjectLiteral.

(** [SYMBOL_MAP], in the order of its keys. *)
Definition SYMBOL_MAP : list (string * string) :=
  [("BTCUSDT", "BTC/USD"); ("ETHUSDT", "ETH/USD"); ("PAXGUSDT", "XAU/USD");
   ("EURUSDT", "EUR/USD"); ("GBPUSDT", "GBP/USD"); ("SOLUSDT", "SOL/USD");
   ("XRPUSDT", "XRP/USD"); ("BNBUSDT", "BNB/USD"); ("ADAUSDT", "ADA/USD");
   ("DOGEUSDT", "DOGE/USD")].

(** [Object.keys(SYMBOL_MAP)] *)
Definition order : list string := map fst SYMBOL_MAP.

(** What [SYMBOL_MAP[symbol]] yields when it is not [undefined]: the
    string under an own key, or what [Object.prototype] holds under that
    name (a function; under "__proto__", [Object.prototype] itself). *)
Inductive Shown :=
| Name (label : string)
| Builtin (member : string).

(** [SYMBOL_MAP[symbol]] *)
Definition displayName (symbol : string) : option Shown :=
  match List.find (λ kv, bool_decide (kv.1 = symbol)) SYMBOL_MAP with
  | Some kv => Some (Name kv.2)
  | None => if inherited symbol then Some (Builtin symbol) else None
  end.

(** A price as the ticker prints it: [toFixed(4)] below 10, otherwise
    [toLocaleString] with two fraction digits; the digits are not spelt
    out. *)
Inductive PriceText :=
| Fixed4 (x : number)
| Locale2 (x : number).

(** [changePercent]: an optional "+", [changeRaw.toFixed(2)] and "%" *)
Record ChangeText := mkChange {
  plus : bool;
  percent : number
}.

Record TickerItem := mkItem {
  symbol : string;
  displayPair : Shown;
  price : PriceText;
  changePercent : ChangeText;
  up : bool
}.

(** One element of the mini-ticker array: an object whose [s] is a
    string, with [c] and [o] already through [parseFloat]. *)
Record MiniTicker := mkTicker {
  s : string;
  c : number;
  o : number
}.

Definition item (shown : Shown) (t : MiniTicker) : TickerItem :=
  let currentPrice := c t in
  let openPrice := o t in
  let changeRaw := ((currentPrice - openPrice) / openPrice) * 100 in
  mkItem (s t) shown
         (if PrimFloat.ltb currentPrice 10 then Fixed4 currentPrice else Locale2 currentPrice)
         (mkChange (gtb changeRaw 0) changeRaw)
         (geb changeRaw 0).

(** The values that [updates[key]] can yield, and so the values that can
    come to sit in the ticker's array: an item, or what a lookup finds
    further up the prototype chain. *)
Inductive Value :=
| Item (it : TickerItem)
| Inherited (member : string)   (** what [Object.prototype] holds under [member] *)
| Str (text : string)
| Price (text : PriceText)
| Change (text : ChangeText)
| Flag (b : bool).

Definition of_shown (v : Shown) : Value :=
  match v with
  | Name label => Str label
  | Builtin member => Inherited member
  end.

(** Whether a value passes [if (v)] and [v || …].  The printed texts are
    never empty. *)
Definition truthy (v : Value) : bool :=
  match v with
  | Str text => negb (bool_decide (text = ""))
  | Flag b => b
  | _ => true
  end.

(** [v.symbol]; [None] is [undefined]. *)
Definition symbol_of (v : Value) : option string :=
  match v with
  | Item it => Some (symbol it)
  | _ => None
  end.

(** [updates]: its own properties in insertion order, and the item that
    has replaced its prototype, if one has. *)
Record Updates := mkUpdates {
  own : list (string * TickerItem);
  proto : option TickerItem
}.

(** Setting an own property. *)
Fixpoint record_set (key : string) (value : TickerItem) (r : list (string * TickerItem))
    : list (string * TickerItem) :=
  match r with
  | [] => [(key, value)]
  | (k, v) :: r' =>
    if bool_decide (k = key) then (k, value) :: r' else (k, v) :: record_set key value r'
  end.

(** Reading an own property. *)
Definition record_get (key : string) (r : list (string * TickerItem)) : option TickerItem :=
  snd <$> List.find (λ kv, bool_decide (kv.1 = key)) r.

(** [updates[key] = value].  Under [__proto__] the assignment runs the
    setter inherited from [Object.prototype]: the item becomes the prototype
    of [updates], and no property is added. *)
Definition assign (key : string) (value : TickerItem) (u : Updates) : Updates :=
  if bool_decide (key = "__proto__") then mkUpdates (own u) (Some value)
  else mkUpdates (record_set key value (own u)) (proto u).

(** The own properties of an item. *)
Definition field (key : string) (it : TickerItem) : option Value :=
  if bool_decide (key = "symbol") then Some (Str (symbol it))
  else if bool_decide (key = "displayPair") then Some (of_shown (displayPair it))
  else if bool_decide (key = "price") then Some (Price (price it))
  else if bool_decide (key = "changePercent") then Some (Change (changePercent it))
  else if bool_decide (key = "up") then Some (Flag (up it))
  else None.

(** [updates[key]]: an own property, else a property of the item that has
    replaced the prototype, else a member of [Object.prototype]; the getter
    under [__proto__] yields the prototype of [updates]. *)
Definition read (key : string) (u : Updates) : option Value :=
  match record_get key (own u) with
  | Some it => Some (Item it)
  | None =>
    match proto u ≫= field key with
    | Some v => Some v
    | None =>
      if bool_decide (key = "__proto__")
      then Some (match proto u with Some it => Item it | None => Inherited key end)
      else if inherited key then Some (Inherited key) else None
    end
  end.

(** The callback of the [forEach] that fills [updates]. *)
Definition collect_step (updates : Updates) (t : MiniTicker) : Updates :=
  match displayName (s t) with
  | Some shown => if truthy (of_shown shown) then assign (s t) (item shown t) updates
                  else updates
  | None => updates
  end.

Definition collect (data : list MiniTicker) : Updates :=
  fold_left collect_step data (mkUpdates [] None).

(** [Object.values(updates)] *)
Definition values (u : Updates) : list TickerItem := map snd (own u).

(** [order.indexOf(symbol)] *)
Definition indexOf (symbol : string) : Z :=
  match list_find (λ k, k = symbol) order with
  | Some (i, _) => Z.of_nat i
  | None => -1
  end.

(** [items.sort((a, b) => order.indexOf(a.symbol) - order.indexOf(b.symbol))];
    the sort is stable, which fixes its result. *)
Fixpoint insert (x : TickerItem) (l : list TickerItem) : list TickerItem :=
  match l with
  | [] => [x]
  | y :: l' =>
    if (indexOf (symbol x) - indexOf (symbol y) <? 0)%Z then x :: y :: l'
    else y :: insert x l'
  end.

Definition sortTickers (items : list TickerItem) : list TickerItem :=
  fold_left (λ sorted x, insert x sorted) items [].

(** [updates[item.symbol] || item]; a missing [symbol] is the key
    "undefined". *)
Definition refresh (updates : Updates) (v : Value) : Value :=
  match read (default "undefined" (symbol_of v)) updates with
  | Some found => if truthy found then found else v
  | None => v
  end.

(** The updater given to [setTickerData]; [updates] is the record filled
    by [collect]. *)
Definition mergeTickers (updates : Updates) (prev : list Value) : list Value :=
  if (length prev =? 0)%nat then map Item (sortTickers (values updates))
  else
    let nextState := map (refresh updates) prev in
    let existingSymbols := map symbol_of prev in
    nextState
    ++ map Item
         (List.filter (λ u, negb (bool_decide (Some (symbol u) ∈ existingSymbols)))
                      (values updates)).

(** [ws.onmessage] for a message that parses to an array of mini-tickers;
    [prev] is the array the ticker holds. *)
Definition onmessage (data : list MiniTicker) (prev : list Value) : list Value :=
  mergeTickers (collect data) prev.

(** Items of symbols of [SYMBOL_MAP], each symbol once. *)
Definition well_formed (items : list TickerItem) : Prop :=
  NoDup (map symbol items) ∧ Forall (λ it, symbol it ∈ order) items.

(** No symbol of the message is the name of a member of
    [Object.prototype]. *)
Definition plain_symbols (data : list MiniTicker) : Prop :=
  Forall (λ t, inherited (s t) = false) data.

(** Every entry of the record sits under its own symbol, a key of
    [SYMBOL_MAP]. *)
Definition keyed (r : list (string * TickerItem)) : Prop :=
  Forall (λ kv, symbol kv.2 = kv.1 ∧ kv.1 ∈ order) r.

(** The order of [SYMBOL_MAP]. *)
Definition by_rank (a b : TickerItem) : Prop :=
  (indexOf (symbol a) ≤ indexOf (symbol b))%Z.

Definition sample_feed : list MiniTicker :=
  [mkTicker "ETHUSDT" 3000 2950; mkTicker "LTCUSDT" 80 82; mkTicker "BTCUSDT" 60000 61000;
   mkTicker "ETHUSDT" 3001 2950].

(** A feed that names a member of [Object.prototype]. *)
Definition odd_feed : list MiniTicker :=
  [mkTicker "BTCUSDT" 60000 61000; mkTicker "constructor" 1 1].

End MarketTicker.

(** * Theorems *)

Module NumberProofs.

Example floor_examples :
  map floor [450000.7; 0.3; -0.3; -2.5; -2; 7; 0.5 * 900000; 0.99999 * 900000]
  = [450000; 0; -1; -3; -2; 7; 450000; 899991].
Proof. reflexivity. Qed.

(** With [Math.random()] in [0, 1) a ticket has six digits. *)
Example ticket_examples :
  map (λ r, floor (r * 900000) + 100000) [0; 0.25; 0.5; 0.999999]
  = [100000; 325000; 550000; 999999].
Proof. reflexivity. Qed.

(** *** NaN and [==] *)

Lemma SFeqb_same s :
  SFeqb s s = negb (match s with S754_nan => true | _ => false end).
Proof.
  unfold SFeqb, SFcompare.
  destruct s as [sg|sg| |sg m e]; try (by destruct sg); try reflexivity.
  change (IntDef.Z.compare e e) with (Z.compare e e).
  change (PosDef.Pos.compare_cont Eq m m) with (Pos.compare m m).
  rewrite Z.compare_refl, Pos.compare_refl. destruct sg; reflexivity.
Qed.

Lemma is_nan_spec x :
  PrimFloat.is_nan x = match Prim2SF x with S754_nan => true | _ => false end.
Proof.
  unfold PrimFloat.is_nan.
  rewrite FloatAxioms.eqb_spec, SFeqb_same, negb_involutive. reflexivity.
Qed.

(** [x == x] fails for NaN only. *)
Lemma eqb_same x : PrimFloat.eqb x x = negb (PrimFloat.is_nan x).
Proof. unfold PrimFloat.is_nan. rewrite negb_involutive. reflexivity. Qed.

(** [x == y] holds of no NaN. *)
Lemma eqb_true_number x y : PrimFloat.eqb x y = true → PrimFloat.is_nan x = false.
Proof.
  rewrite FloatAxioms.eqb_spec, is_nan_spec.
  destruct (Prim2SF x); try reflexivity. discriminate.
Qed.

(** A difference that is a number has a minuend that is one. *)
Lemma sub_number x y : PrimFloat.is_nan (x - y) = false → PrimFloat.is_nan x = false.
Proof.
  rewrite !is_nan_spec, FloatAxioms.sub_spec. destruct (Prim2SF x); try reflexivity.
  destruct (Prim2SF y); discriminate.
Qed.

End NumberProofs.

Module LedgerProofs.
Import AccountState PaperTrading LedgerSpec.

(** *** Basic facts *)

Lemma updateEquity_invariant a : account_invariant (updateEquity a).
Proof. split; reflexivity. Qed.

Lemma updateEquity_marginUsed a : marginUsed (updateEquity a) = marginUsed a.
Proof. reflexivity. Qed.

Lemma notifyListeners_accountState L :
  accountState (notifyListeners L) = accountState L.
Proof. reflexivity. Qed.

Lemma as_side_None a : as_side a = None ↔ a = Action.WAIT.
Proof. destruct a; simpl; split; congruence. Qed.

Lemma tickMarket_empty random L :
  positions (accountState L) = [] → tickMarket random L = L.
Proof.
  intros Hnil. unfold tickMarket. rewrite Hnil. simpl.
  destruct (decide (0 = 0)%nat); [reflexivity | congruence].
Qed.

(** *** One operation at a time *)

Lemma executePaperTrade_invariant env execution asset L :
  account_invariant (accountState L) →
  account_invariant (accountState (executePaperTrade env execution asset L).2).
Proof.
  intros HL. unfold executePaperTrade.
  destruct (as_side (TradeExecution.action execution)); simpl.
  - apply updateEquity_invariant.
  - exact HL.
Qed.

Lemma closePosition_invariant id L :
  account_invariant (accountState L) →
  account_invariant (accountState (closePosition id L)).
Proof.
  intros HL. unfold closePosition.
  destruct (list_find _ _) as [[posIndex pos]|]; simpl.
  - apply updateEquity_invariant.
  - exact HL.
Qed.

Lemma closePosition_marginUsed id L :
  marginUsed (accountState (closePosition id L)) = marginUsed (accountState L).
Proof.
  unfold closePosition.
  destruct (list_find _ _) as [[posIndex pos]|]; reflexivity.
Qed.

Lemma tickMarket_invariant random L :
  account_invariant (accountState L) →
  account_invariant (accountState (tickMarket random L)).
Proof.
  intros HL. unfold tickMarket.
  destruct (decide _); simpl.
  - exact HL.
  - apply updateEquity_invariant.
Qed.

Lemma tickMarket_marginUsed random L :
  marginUsed (accountState (tickMarket random L)) = marginUsed (accountState L).
Proof.
  unfold tickMarket. destruct (decide _); reflexivity.
Qed.

Lemma initialLedger_invariant : account_invariant (accountState initialLedger).
Proof. split; reflexivity. Qed.

(** With the fields as [updateEquity] leaves them, both equations hold
    under [==] unless freeMargin is NaN. *)
Lemma account_invariant_equations a :
  account_invariant a → account_equations a = is_number (freeMargin a).
Proof.
  intros [He Hf]. unfold account_equations, is_number.
  rewrite <- He, <- Hf, !NumberProofs.eqb_same.
  destruct (PrimFloat.is_nan (freeMargin a)) eqn:Hnan; [apply andb_false_r|].
  rewrite Hf in Hnan. apply NumberProofs.sub_number in Hnan. rewrite Hnan. reflexivity.
Qed.

Lemma account_equations_number a :
  account_equations a = true → account_equations a = is_number (freeMargin a).
Proof.
  intros H. rewrite H. unfold account_equations in H.
  apply andb_true_iff in H as [_ H]. apply NumberProofs.eqb_true_number in H.
  unfold is_number. rewrite H. reflexivity.
Qed.

Lemma executePaperTrade_equations env execution asset L :
  account_equations (accountState L) = true →
  let a' := accountState (executePaperTrade env execution asset L).2 in
  account_equations a' = is_number (freeMargin a').
Proof.
  intros HL. unfold executePaperTrade.
  destruct (as_side (TradeExecution.action execution)); cbn zeta; cbn [snd].
  - rewrite notifyListeners_accountState. cbn [accountState].
    apply account_invariant_equations, updateEquity_invariant.
  - apply account_equations_number, HL.
Qed.

Lemma closePosition_equations id L :
  account_equations (accountState L) = true →
  let a' := accountState (closePosition id L) in
  account_equations a' = is_number (freeMargin a').
Proof.
  intros HL. unfold closePosition.
  destruct (list_find _ _) as [[posIndex pos]|]; cbn zeta.
  - rewrite notifyListeners_accountState. cbn [accountState].
    apply account_invariant_equations, updateEquity_invariant.
  - apply account_equations_number, HL.
Qed.

Lemma tickMarket_equations random L :
  account_equations (accountState L) = true →
  let a' := accountState (tickMarket random L) in
  account_equations a' = is_number (freeMargin a').
Proof.
  intros HL. unfold tickMarket.
  destruct (decide _); cbn zeta.
  - apply account_equations_number, HL.
  - rewrite notifyListeners_accountState. cbn [accountState].
    apply account_invariant_equations, updateEquity_invariant.
Qed.

(** *** Marking one position *)

Lemma markToMarket_id r pos :
  TradePosition.id (markToMarket r pos) = TradePosition.id pos.
Proof.
  unfold markToMarket.
  destruct (TradePosition.type pos); repeat case_match; reflexivity.
Qed.

Lemma markToMarket_stop_rule r pos :
  let p' := markToMarket r pos in
  TradePosition.currentPrice p' = marked_price r pos
  ∧ TradePosition.pnl p'
    = (TradePosition.currentPrice p' - TradePosition.entryPrice pos)
      * direction (TradePosition.type pos) * TradePosition.lots pos * contractSize
  ∧ match stop_rule (TradePosition.type pos) (marked_price r pos)
                    (TradePosition.sl pos) (TradePosition.tp pos) with
    | Some reason =>
        TradePosition.status p' = Status.CLOSED
        ∧ TradePosition.closeReason p' = Some reason
    | None =>
        TradePosition.status p' = TradePosition.status pos
        ∧ TradePosition.closeReason p' = TradePosition.closeReason pos
    end.
Proof.
  unfold markToMarket, stop_rule, marked_price, direction, contractSize.
  destruct (TradePosition.type pos); simpl; repeat case_match; simpl; auto.
Qed.

Lemma mark_closed_iff d :
  TradePosition.status d.2 = Status.OPEN →
  Status.is_closed (TradePosition.status (mark d)) = triggers d.
Proof.
  intros Hopen. unfold mark, triggers.
  pose proof (markToMarket_stop_rule d.1 d.2) as (_ & _ & Hrule).
  destruct (stop_rule _ _ _ _) as [reason|].
  - destruct Hrule as [-> _]. reflexivity.
  - destruct Hrule as [-> _]. rewrite Hopen. reflexivity.
Qed.

Lemma is_open_negb s : Status.is_open s = negb (Status.is_closed s).
Proof. destruct s; reflexivity. Qed.

(** *** The positions of a tick and their draws *)

Lemma imap_draws random ps :
  imap (λ i pos, markToMarket (random i) pos) ps = map mark (draws random ps).
Proof.
  unfold draws. revert random.
  induction ps as [|p ps IH]; intros random; simpl; [reflexivity|].
  f_equal. apply (IH (random ∘ S)).
Qed.

Lemma draws_lookup random ps i pos :
  ps !! i = Some pos → draws random ps !! i = Some (random i, pos).
Proof.
  intros Hi. unfold draws. rewrite list_lookup_imap, Hi. reflexivity.
Qed.

Lemma draws_snd random ps : map snd (draws random ps) = ps.
Proof.
  unfold draws. revert random.
  induction ps as [|p ps IH]; intros random; simpl; [reflexivity|].
  f_equal. apply (IH (random ∘ S)).
Qed.

Lemma draws_open random ps :
  all_open ps → Forall (λ d, TradePosition.status d.2 = Status.OPEN) (draws random ps).
Proof.
  intros Hopen. rewrite <- (draws_snd random ps) in Hopen.
  unfold all_open in Hopen. rewrite Forall_map in Hopen. exact Hopen.
Qed.

Lemma filter_map_mark (f : TradePosition.t → bool) (g : number * TradePosition.t → bool) ds :
  Forall (λ d, f (mark d) = g d) ds →
  List.filter f (map mark ds) = map mark (List.filter g ds).
Proof.
  induction 1 as [|d ds Hd _ IH]; simpl; [reflexivity|].
  rewrite Hd, IH. destruct (g d); reflexivity.
Qed.

Lemma fold_left_map_mark ds (b : number) :
  fold_left (λ b p, b + TradePosition.pnl p) (map mark ds) b
  = fold_left (λ b d, b + TradePosition.pnl (mark d)) ds b.
Proof.
  revert b. induction ds as [|d ds IH]; intros b; simpl; [reflexivity|]. apply IH.
Qed.

Lemma tickMarket_unfold random L :
  positions (accountState L) ≠ [] →
  all_open (positions (accountState L)) →
  let ds := draws random (positions (accountState L)) in
  accountState (tickMarket random L)
  = updateEquity
      (AccountState.mk
         (fold_left (λ b d, b + TradePosition.pnl (mark d)) (List.filter triggers ds)
                    (balance (accountState L)))
         (equity (accountState L)) (marginUsed (accountState L))
         (freeMargin (accountState L))
         (map mark (List.filter (λ d, negb (triggers d)) ds))).
Proof.
  intros Hne Hopen ds. unfold tickMarket.
  destruct (decide _) as [Hlen|_].
  { destruct (positions (accountState L)); [congruence | discriminate]. }
  rewrite notifyListeners_accountState. cbn [accountState].
  rewrite imap_draws. fold ds.
  pose proof (draws_open random _ Hopen) as Hds. fold ds in Hds.
  rewrite (filter_map_mark _ triggers), (filter_map_mark _ (λ d, negb (triggers d))).
  - rewrite fold_left_map_mark. reflexivity.
  - eapply Forall_impl; [exact Hds|]. intros d Hd. simpl.
    rewrite is_open_negb, mark_closed_iff by exact Hd. reflexivity.
  - eapply Forall_impl; [exact Hds|]. intros d Hd. simpl.
    apply mark_closed_iff. exact Hd.
Qed.

(** *** Invariants of reachable ledgers *)

Lemma ids_delete i ps : ids (delete i ps) = delete i (ids ps).
Proof.
  unfold ids. revert i. induction ps as [|p ps IH]; intros [|i]; simpl; try reflexivity.
  f_equal. apply IH.
Qed.

Lemma ids_lookup ps k p :
  ps !! k = Some p → ids ps !! k = Some (TradePosition.id p).
Proof.
  unfold ids. revert k. induction ps as [|q ps IH]; intros [|k] Hk; simpl in *.
  - discriminate.
  - discriminate.
  - congruence.
  - apply IH, Hk.
Qed.

Lemma NoDup_delete {A} i (l : list A) : NoDup l → NoDup (delete i l).
Proof.
  intros Hl. eapply sublist_NoDup; [exact Hl|]. apply sublist_delete.
Qed.

Lemma Forall_sublist {A} (P : A → Prop) (l1 l2 : list A) :
  sublist l1 l2 → Forall P l2 → Forall P l1.
Proof.
  rewrite !Forall_forall. intros Hsub Hl2 x Hx.
  apply Hl2. eapply elem_of_sublist; [exact Hx | exact Hsub].
Qed.

Lemma ids_filter_mark g random ps :
  sublist (ids (map mark (List.filter g (draws random ps)))) (ids ps).
Proof.
  unfold ids, draws. revert random.
  induction ps as [|p ps IH]; intros random; simpl; [constructor|].
  destruct (g _); simpl.
  - unfold mark at 1. simpl. rewrite markToMarket_id.
    apply sublist_skip, (IH (random ∘ S)).
  - apply sublist_cons, (IH (random ∘ S)).
Qed.

Lemma all_open_filter_mark random ps :
  all_open ps →
  all_open (map mark (List.filter (λ d, negb (triggers d)) (draws random ps))).
Proof.
  intros Hopen. pose proof (draws_open random ps Hopen) as Hds.
  unfold all_open. rewrite Forall_map.
  induction Hds as [|d ds Hd _ IH]; simpl; [constructor|].
  destruct (triggers d) eqn:Ht; simpl; [exact IH|].
  constructor; [|exact IH].
  pose proof (mark_closed_iff d Hd) as Hc. rewrite Ht in Hc.
  destruct (TradePosition.status (mark d)); [reflexivity | discriminate].
Qed.

Lemma reachable_well_formed L :
  reachable L →
  account_invariant (accountState L)
  ∧ all_open (positions (accountState L))
  ∧ NoDup (ids (positions (accountState L))).
Proof.
  induction 1 as [|l L _ IH|l L _ IH|env execution asset L _ IH Hfresh
                  |id L _ IH|random L _ IH].
  - split; [apply initialLedger_invariant|]. split; constructor.
  - exact IH.
  - unfold unsubscribe. destruct (list_find _ _) as [[? ?]|]; exact IH.
  - destruct IH as (Hinv & Hopen & Hnd).
    split; [apply executePaperTrade_invariant, Hinv|].
    unfold executePaperTrade.
    destruct (as_side _); simpl; [|by split].
    split; [constructor; [reflexivity | exact Hopen]|].
    constructor; [exact Hfresh | exact Hnd].
  - destruct IH as (Hinv & Hopen & Hnd).
    split; [apply closePosition_invariant, Hinv|].
    unfold closePosition.
    destruct (list_find _ _) as [[posIndex pos]|]; simpl; [|by split].
    split.
    + eapply Forall_sublist; [apply sublist_delete | exact Hopen].
    + rewrite ids_delete. apply NoDup_delete, Hnd.
  - destruct IH as (Hinv & Hopen & Hnd).
    split; [apply tickMarket_invariant, Hinv|].
    destruct (positions (accountState L)) as [|p ps] eqn:Hps.
    { rewrite tickMarket_empty by exact Hps. rewrite Hps. by split. }
    assert (Hne : positions (accountState L) ≠ []) by (rewrite Hps; discriminate).
    rewrite <- Hps in Hopen, Hnd.
    rewrite (tickMarket_unfold random L Hne Hopen).
    cbn [updateEquity positions]. split.
    + apply all_open_filter_mark, Hopen.
    + eapply sublist_NoDup; [exact Hnd | apply ids_filter_mark].
Qed.

(** *** The account equations *)

(** C1 (as stated).  The initial account satisfies both
    equations.  Opening a BUY whose lot size is NaN leaves marginUsed and
    freeMargin NaN, so that freeMargin == equity − marginUsed is false; one
    tick later the pnl of the position and with it equity are NaN, and
    equity == balance + Σ pnl is false as well. *)
Lemma executePaperTrade_nan_breaks_equations :
  let L := (executePaperTrade entropy1 nan_lots_buy "EURUSD" initialLedger).2 in
  let a := accountState L in
  let a' := accountState (tickMarket (λ _, 0.75) L) in
  account_equations (accountState initialLedger) = true
  ∧ PrimFloat.eqb (equity a) (balance a + floatingPnL (positions a)) = true
  ∧ PrimFloat.eqb (freeMargin a) (equity a - marginUsed a) = false
  ∧ PrimFloat.eqb (equity a') (balance a' + floatingPnL (positions a')) = false
  ∧ PrimFloat.eqb (freeMargin a') (equity a' - marginUsed a') = false.
Proof. vm_compute. repeat split. Qed.

(** No NaN need come in from outside: with a lot size of 1e308 the margin
    is infinite, after one tick so is the pnl, and freeMargin is ∞ − ∞. *)
Example huge_lots_break_equations :
  let L := (executePaperTrade entropy1 huge_lots_buy "EURUSD" initialLedger).2 in
  let a' := accountState (tickMarket (λ _, 0.75) L) in
  account_equations (accountState L) = true
  ∧ map TradePosition.status (positions a') = [Status.OPEN]
  ∧ PrimFloat.eqb (equity a') (balance a' + floatingPnL (positions a')) = true
  ∧ PrimFloat.eqb (freeMargin a') (equity a' - marginUsed a') = false.
Proof. vm_compute. repeat split. Qed.

(** C1 (amended).  Let both account equations hold, as [==] compares
    numbers, before [executePaperTrade], [closePosition] or [tickMarket].
    After the operation equity == balance + Σ pnl over the open positions
    and freeMargin == equity − marginUsed both hold if and only if the
    freeMargin it leaves is not NaN.  [closePosition] and [tickMarket] leave
    marginUsed as it was, so only [executePaperTrade] ever changes it. *)
Theorem ledger_operations_keep_equations (L : Ledger) :
  account_equations (accountState L) = true →
  (∀ env execution asset,
      let a' := accountState (executePaperTrade env execution asset L).2 in
      account_equations a' = is_number (freeMargin a'))
  ∧ (∀ id,
      let a' := accountState (closePosition id L) in
      account_equations a' = is_number (freeMargin a')
      ∧ marginUsed a' = marginUsed (accountState L))
  ∧ (∀ random,
      let a' := accountState (tickMarket random L) in
      account_equations a' = is_number (freeMargin a')
      ∧ marginUsed a' = marginUsed (accountState L)).
Proof.
  intros HL. split; [|split].
  - intros env execution asset. apply executePaperTrade_equations, HL.
  - intros id. split; [apply closePosition_equations, HL | apply closePosition_marginUsed].
  - intros random. split; [apply tickMarket_equations, HL | apply tickMarket_marginUsed].
Qed.

Lemma ledger_operations_keep_equations_witness :
  account_equations (accountState eurusd_ledger) = true
  ∧ account_equations (accountState gold_ledger) = true
  ∧ account_equations
      (accountState (closePosition "1b4e28ba-2fa1-11d2-883f-0016d3cca427" gold_ledger))
    = true
  ∧ length (positions (accountState (tickMarket (λ _, 0.75) gold_ledger))) = 1%nat
  ∧ account_equations (accountState (tickMarket (λ _, 0.75) gold_ledger)) = true.
Proof.
  assert (H1 : account_equations (accountState eurusd_ledger) = true) by reflexivity.
  assert (H2 : account_equations (accountState gold_ledger) = true).
  { unfold gold_ledger.
    rewrite (proj1 (ledger_operations_keep_equations eurusd_ledger H1)). reflexivity. }
  destruct (ledger_operations_keep_equations gold_ledger H2) as (_ & Hclose & Htick).
  split; [exact H1|]. split; [exact H2|]. split; [|split].
  - rewrite (proj1 (Hclose _)). reflexivity.
  - reflexivity.
  - rewrite (proj1 (Htick _)). reflexivity.
Defined.

(** *** The market tick *)

(** C2.  A tick over a non-empty set of open positions re-prices every
    position and recomputes its pnl as (currentPrice − entryPrice) ×
    direction × lots × 100000, direction being +1 for BUY and −1 for SELL;
    the stop rule is applied to the new price in the stated order; a
    position that triggers is CLOSED with its reason and is absent from
    the positions kept, one that does not stays OPEN and is kept; and the
    new balance is the old one plus the pnl of each triggered position,
    each added once. *)
Theorem tickMarket_marks_and_closes random (L : Ledger) :
  positions (accountState L) ≠ [] →
  all_open (positions (accountState L)) →
  let ds := draws random (positions (accountState L)) in
  let L' := tickMarket random L in
  (∀ i pos, positions (accountState L) !! i = Some pos →
     let p' := markToMarket (random i) pos in
     TradePosition.pnl p'
     = (TradePosition.currentPrice p' - TradePosition.entryPrice pos)
       * direction (TradePosition.type pos) * TradePosition.lots pos * contractSize
     ∧ match stop_rule (TradePosition.type pos) (TradePosition.currentPrice p')
                       (TradePosition.sl pos) (TradePosition.tp pos) with
       | Some reason =>
           TradePosition.status p' = Status.CLOSED
           ∧ TradePosition.closeReason p' = Some reason
           ∧ p' ∉ positions (accountState L')
       | None =>
           TradePosition.status p' = Status.OPEN
           ∧ p' ∈ positions (accountState L')
       end)
  ∧ all_open (positions (accountState L'))
  ∧ positions (accountState L') = map mark (List.filter (λ d, negb (triggers d)) ds)
  ∧ balance (accountState L')
    = fold_left (λ b d, b + TradePosition.pnl (mark d)) (List.filter triggers ds)
                (balance (accountState L)).
Proof.
  intros Hne Hopen ds L'.
  assert (Hpos : positions (accountState L')
                 = map mark (List.filter (λ d, negb (triggers d)) ds)).
  { unfold L'. rewrite tickMarket_unfold by assumption. reflexivity. }
  assert (Hkept : all_open (positions (accountState L'))).
  { rewrite Hpos. apply all_open_filter_mark, Hopen. }
  split; [|split; [exact Hkept|split; [exact Hpos|]]].
  - intros i pos Hi p'.
    pose proof (markToMarket_stop_rule (random i) pos) as (Hprice & Hpnl & Hrule).
    fold p' in Hprice, Hpnl, Hrule. split; [exact Hpnl|].
    rewrite Hprice.
    assert (Hin : In (random i, pos) ds).
    { apply list_elem_of_In. eapply list_elem_of_lookup_2, draws_lookup, Hi. }
    assert (Hpo : TradePosition.status pos = Status.OPEN).
    { unfold all_open in Hopen. rewrite Forall_forall in Hopen.
      apply Hopen. eapply list_elem_of_lookup_2, Hi. }
    destruct (stop_rule _ _ _ _) as [reason|] eqn:Hstop.
    + destruct Hrule as [Hst Hre]. split; [exact Hst|]. split; [exact Hre|].
      intros Hel. unfold all_open in Hkept. rewrite Forall_forall in Hkept.
      specialize (Hkept _ Hel). congruence.
    + destruct Hrule as [Hst _]. split; [congruence|].
      rewrite Hpos. apply list_elem_of_In, in_map_iff.
      exists (random i, pos). split; [reflexivity|].
      apply filter_In. split; [exact Hin|].
      unfold triggers. simpl. rewrite Hstop. reflexivity.
  - unfold L'. rewrite tickMarket_unfold by assumption. reflexivity.
Qed.

Lemma tickMarket_marks_and_closes_witness :
  let random := λ _ : nat, 0.9 in
  positions (accountState gold_ledger) ≠ []
  ∧ all_open (positions (accountState gold_ledger))
  ∧ all_open (positions (accountState (tickMarket random gold_ledger)))
  ∧ balance (accountState (tickMarket random gold_ledger))
    = fold_left (λ b d, b + TradePosition.pnl (mark d))
                (List.filter triggers (draws random (positions (accountState gold_ledger))))
                (balance (accountState gold_ledger)).
Proof.
  intros random.
  assert (H1 : positions (accountState gold_ledger) ≠ []) by discriminate.
  assert (H2 : all_open (positions (accountState gold_ledger))).
  { repeat constructor. }
  split; [exact H1|]. split; [exact H2|].
  destruct (tickMarket_marks_and_closes random gold_ledger H1 H2) as (_ & H3 & _ & H4).
  split; [exact H3 | exact H4].
Defined.

(** The gold position of [gold_ledger] is closed at its take-profit by a
    draw of 0.9, and its pnl reaches the balance. *)
Example tick_take_profit :
  let L' := tickMarket (λ _, 0.9) gold_ledger in
  TradePosition.closeReason (markToMarket 0.9 (TradePosition.mk
      "6fa459ea-ee8a-3ca4-894e-db77e160355e" 325000 "XAUUSD" Side.BUY 2000 2000 1990 2000.05 1
      1700000060000 0 Status.OPEN None)) = Some CloseReason.TP
  ∧ ids (positions (accountState L')) = ["1b4e28ba-2fa1-11d2-883f-0016d3cca427"]
  ∧ PrimFloat.ltb 107999 (balance (accountState L')) = true
  ∧ PrimFloat.ltb (balance (accountState L')) 108001 = true.
Proof. vm_compute. repeat split. Qed.

(** *** Opening a position *)

(** C3 (as stated).  With entry price 1.09 and 0.01 lots the amount added
    to marginUsed is not entryPrice × lots: the source computes
    (entryPrice × lots × 100) / 100, which rounds differently. *)
Lemma executePaperTrade_margin_not_product :
  ¬ trade_opened margin_product entropy1 eurusd_buy "EURUSD" initialLedger.
Proof.
  unfold trade_opened. cbn [TradeExecution.action eurusd_buy].
  intros (pos & _ & _ & _ & _ & _ & _ & _ & _ & Hmargin & _).
  apply (f_equal (λ x, PrimFloat.eqb x (0 + margin_product eurusd_buy))) in Hmargin.
  vm_compute in Hmargin. discriminate Hmargin.
Qed.

(** C3 (amended).  [executePaperTrade] returns nothing and changes nothing
    when the action is WAIT.  For BUY and SELL it puts exactly one new
    position in front of the open ones, with currentPrice = entryPrice,
    pnl = 0 and takeProfit = takeProfit1; it adds
    (entryPrice × lots × 100) / 100 to marginUsed, recomputes equity and
    freeMargin, and calls every listener once with the new state. *)
Theorem executePaperTrade_opens env execution asset (L : Ledger) :
  trade_opened margin_scaled env execution asset L.
Proof.
  unfold trade_opened, executePaperTrade, margin_scaled.
  destruct (TradeExecution.action execution); simpl; [| |reflexivity].
  all: eexists; unfold account_invariant; repeat split.
Qed.

(** *** Closing a position *)

Lemma NoDup_not_in_delete {A} (l : list A) i x :
  NoDup l → l !! i = Some x → x ∉ delete i l.
Proof.
  intros Hnd Hi Hel. apply list_elem_of_lookup in Hel as [j Hj].
  destruct (decide (j < i)) as [Hlt|Hge].
  - rewrite list_lookup_delete_lt in Hj by exact Hlt.
    pose proof (NoDup_lookup _ _ _ _ Hnd Hi Hj). lia.
  - rewrite list_lookup_delete_ge in Hj by lia.
    pose proof (NoDup_lookup _ _ _ _ Hnd Hi Hj). lia.
Qed.

Lemma closePosition_unknown id L :
  id ∉ ids (positions (accountState L)) → closePosition id L = L.
Proof.
  intros Hid. unfold closePosition.
  destruct (list_find _ _) as [[posIndex pos]|] eqn:Hfind; [|reflexivity].
  apply list_find_Some in Hfind as (Hi & Hp & _). exfalso. apply Hid.
  unfold ids. apply list_elem_of_In, in_map_iff. exists pos. split; [exact Hp|].
  apply list_elem_of_In. eapply list_elem_of_lookup_2, Hi.
Qed.

Lemma closePosition_known id L pos :
  NoDup (ids (positions (accountState L))) →
  pos ∈ positions (accountState L) →
  TradePosition.id pos = id →
  ∃ i, positions (accountState L) !! i = Some pos
       ∧ accountState (closePosition id L)
         = updateEquity
             (AccountState.mk
                (balance (accountState L) + TradePosition.pnl pos)
                (equity (accountState L)) (marginUsed (accountState L))
                (freeMargin (accountState L))
                (delete i (positions (accountState L))))
       ∧ id ∉ ids (positions (accountState (closePosition id L))).
Proof.
  intros Hnd Hel Hid. unfold closePosition.
  destruct (list_find _ _) as [[posIndex pos0]|] eqn:Hfind.
  - apply list_find_Some in Hfind as (Hi & Hp & _).
    apply list_elem_of_lookup in Hel as [j Hj].
    assert (Hids : ∀ k p, positions (accountState L) !! k = Some p →
                          ids (positions (accountState L)) !! k = Some (TradePosition.id p)).
    { intros k p Hk. apply ids_lookup, Hk. }
    pose proof (Hids _ _ Hi) as Hi'. pose proof (Hids _ _ Hj) as Hj'.
    rewrite Hp in Hi'. rewrite Hid in Hj'.
    pose proof (NoDup_lookup _ _ _ _ Hnd Hi' Hj') as ->.
    assert (pos0 = pos) as -> by congruence.
    exists j. split; [exact Hj|]. split; [reflexivity|].
    simpl. rewrite ids_delete. apply NoDup_not_in_delete; assumption.
  - apply list_find_None in Hfind. rewrite Forall_forall in Hfind.
    exfalso. exact (Hfind _ Hel Hid).
Qed.

(** C4.  When the open positions carry distinct identifiers,
    [closePosition id] changes nothing if no open position has that
    identifier; otherwise it removes the position, adds its pnl to the
    balance once, and leaves no position with that identifier, so that a
    second call changes nothing: closing twice is closing once. *)
Theorem closePosition_twice id (L : Ledger) :
  NoDup (ids (positions (accountState L))) →
  (id ∉ ids (positions (accountState L)) → closePosition id L = L)
  ∧ (∀ pos, pos ∈ positions (accountState L) → TradePosition.id pos = id →
       balance (accountState (closePosition id L))
       = balance (accountState L) + TradePosition.pnl pos
       ∧ (∃ i, positions (accountState L) !! i = Some pos
               ∧ positions (accountState (closePosition id L))
                 = delete i (positions (accountState L)))
       ∧ id ∉ ids (positions (accountState (closePosition id L))))
  ∧ closePosition id (closePosition id L) = closePosition id L.
Proof.
  intros Hnd. split; [apply closePosition_unknown|]. split.
  - intros pos Hel Hid.
    destruct (closePosition_known id L pos Hnd Hel Hid) as (i & Hi & Hacc & Hgone).
    split; [rewrite Hacc; reflexivity|]. split; [|exact Hgone].
    exists i. split; [exact Hi | rewrite Hacc; reflexivity].
  - destruct (decide (id ∈ ids (positions (accountState L)))) as [Hin|Hout].
    + unfold ids in Hin. apply list_elem_of_In, in_map_iff in Hin as (pos & Hid & Hel).
      apply list_elem_of_In in Hel.
      destruct (closePosition_known id L pos Hnd Hel Hid) as (_ & _ & _ & Hgone).
      apply closePosition_unknown, Hgone.
    + rewrite !(closePosition_unknown id L Hout). reflexivity.
Qed.

Lemma closePosition_twice_witness :
  let id := "1b4e28ba-2fa1-11d2-883f-0016d3cca427" in
  NoDup (ids (positions (accountState gold_ledger)))
  ∧ closePosition id (closePosition id gold_ledger) = closePosition id gold_ledger
  ∧ ids (positions (accountState (closePosition id gold_ledger)))
    = ["6fa459ea-ee8a-3ca4-894e-db77e160355e"].
Proof.
  intros id.
  assert (Hnd : NoDup (ids (positions (accountState gold_ledger)))).
  { apply (bool_decide_unpack _). vm_compute. exact I. }
  split; [exact Hnd|]. split.
  - exact (proj2 (proj2 (closePosition_twice id gold_ledger Hnd))).
  - reflexivity.
Defined.

(** C10.  With no open position [tickMarket] returns at once: the ledger
    is unchanged, so no field of the account changes and no listener is
    called. *)
Theorem tickMarket_without_positions random (L : Ledger) :
  positions (accountState L) = [] →
  tickMarket random L = L
  ∧ accountState (tickMarket random L) = accountState L
  ∧ delivered (tickMarket random L) = delivered L.
Proof.
  intros Hnil. rewrite (tickMarket_empty random L Hnil). repeat split.
Qed.

Lemma tickMarket_without_positions_witness :
  let L := subscribeToAccountUpdates 3 initialLedger in
  positions (accountState L) = []
  ∧ tickMarket (λ _, 0.75) L = L
  ∧ delivered (tickMarket (λ _, 0.75) L) = [(3%nat, accountState initialLedger)].
Proof.
  intros L. split; [reflexivity|].
  destruct (tickMarket_without_positions (λ _, 0.75) L eq_refl) as (H1 & _ & H3).
  split; [exact H1 | exact H3].
Defined.

End LedgerProofs.

Module FilterProofs.
Import ActivityFilter.

Lemma isMarketActive_short candles :
  (length candles < 3)%nat → isMarketActive candles = true.
Proof.
  intros Hlen. unfold isMarketActive.
  destruct (Nat.ltb_spec (length candles) 3) as [_|Hge]; [reflexivity | lia].
Qed.

Lemma isMarketActive_average candles :
  (3 ≤ length candles)%nat →
  isMarketActive candles = PrimFloat.ltb threshold (average (map range_ratio candles)).
Proof.
  intros Hlen. unfold isMarketActive.
  destruct (Nat.ltb_spec (length candles) 3) as [Hlt|_]; [lia | reflexivity].
Qed.

(** C5.  [isMarketActive] is true for fewer than three bars, the empty
    sequence included.  For three bars or more it is true exactly when the
    average of the range ratios (high − low) / open is strictly greater
    than 0.00015; an average equal to the threshold gives false. *)
Theorem isMarketActive_threshold candles :
  isMarketActive [] = true
  ∧ ((length candles < 3)%nat → isMarketActive candles = true)
  ∧ ((3 ≤ length candles)%nat →
       isMarketActive candles
       = PrimFloat.ltb 0.00015 (average (map range_ratio candles))
       ∧ (average (map range_ratio candles) = 0.00015 → isMarketActive candles = false)).
Proof.
  split; [reflexivity|]. split; [apply isMarketActive_short|].
  intros Hlen. rewrite (isMarketActive_average candles Hlen). split; [reflexivity|].
  intros ->. reflexivity.
Qed.

Lemma isMarketActive_threshold_witness :
  let candles := [bar_at_threshold; bar_at_threshold; bar_at_threshold] in
  (3 ≤ length candles)%nat
  ∧ average (map range_ratio candles) = 0.00015
  ∧ isMarketActive candles = false
  ∧ ((length [bar_lively; bar_lively] < 3)%nat
     ∧ isMarketActive [bar_lively; bar_lively] = true).
Proof.
  intros candles.
  assert (Hlen : (3 ≤ length candles)%nat) by (simpl; lia).
  assert (Havg : average (map range_ratio candles) = 0.00015) by reflexivity.
  split; [exact Hlen|]. split; [exact Havg|]. split.
  - exact (proj2 (proj2 (proj2 (isMarketActive_threshold candles)) Hlen) Havg).
  - assert (Hshort : (length [bar_lively; bar_lively] < 3)%nat) by (simpl; lia).
    split; [exact Hshort|].
    exact (proj1 (proj2 (isMarketActive_threshold [bar_lively; bar_lively])) Hshort).
Defined.

Example flat_market_is_inactive : isMarketActive [bar_flat; bar_flat; bar_flat] = false.
Proof. reflexivity. Qed.

Example lively_market_is_active :
  isMarketActive [bar_lively; bar_lively; bar_lively] = true.
Proof. reflexivity. Qed.

End FilterProofs.

Module AgentProofs.
Import Agent.

(** *** The execution policy *)

Lemma executionLogic_decide c result app :
  executionLogic c result app
  = act_on (decide (TradeExecution.action (execution result))
                   (TradeExecution.confidenceScore (execution result))
                   (minConfidence (c_agentConfig c)))
           (execution result) app.
Proof.
  unfold executionLogic, decide, act_on.
  destruct (TradeExecution.action (execution result)); simpl;
    try destruct (geb _ _); reflexivity.
Qed.

(** The decision taken can be read off the state it leaves. *)
Lemma act_on_status d e app :
  agentStatus (act_on d e app)
  = match d with EXECUTE => EXECUTING | _ => COOLDOWN end.
Proof. destruct d; reflexivity. Qed.

Lemma act_on_newest_log d e app :
  type <$> head (agentLogs (act_on d e app))
  = Some match d with
         | EXECUTE => SUCCESS
         | REJECT_LOW_CONFIDENCE => WARNING
         | REJECT_WAIT => INFO
         end.
Proof. destruct d; reflexivity. Qed.

(** C6.  Step 5 of the agent cycle acts on the decision of the execution
    policy: REJECT_WAIT when the action is WAIT, whatever the confidence;
    otherwise EXECUTE when confidenceScore >= minConfidence and
    REJECT_LOW_CONFIDENCE when not.  In particular WAIT with confidence 99
    against 50 is REJECT_WAIT, BUY with 80 against 75 is EXECUTE and SELL
    with 60 against 75 is REJECT_LOW_CONFIDENCE. *)
Theorem execution_policy c result app :
  let e := execution result in
  let d := decide (TradeExecution.action e) (TradeExecution.confidenceScore e)
                  (minConfidence (c_agentConfig c)) in
  executionLogic c result app = act_on d e app
  ∧ d = (if bool_decide (TradeExecution.action e = Action.WAIT) then REJECT_WAIT
         else if geb (TradeExecution.confidenceScore e) (minConfidence (c_agentConfig c))
              then EXECUTE
              else REJECT_LOW_CONFIDENCE)
  ∧ decide Action.WAIT 99 50 = REJECT_WAIT
  ∧ decide Action.BUY 80 75 = EXECUTE
  ∧ decide Action.SELL 60 75 = REJECT_LOW_CONFIDENCE.
Proof.
  intros e d. split; [apply executionLogic_decide|].
  split; [|repeat split].
  unfold d, decide. destruct (TradeExecution.action e); reflexivity.
Qed.

(** *** Errors of a cycle *)

Lemma handleError_other c message app :
  message ≠ "RATE_LIMIT" →
  handleError c message app
  = setAgentStatus COOLDOWN (addAgentLog [Text "Agent Error: "; Text message] ERROR app).
Proof.
  intros Hne. unfold handleError. rewrite bool_decide_eq_false_2 by exact Hne. reflexivity.
Qed.

Lemma handleError_other_timers c message app :
  message ≠ "RATE_LIMIT" →
  timers (handleError c message app) = timers app
  ∧ agentTimerRef (handleError c message app) = agentTimerRef app.
Proof. intros Hne. rewrite handleError_other by exact Hne. split; reflexivity. Qed.

Lemma handleError_rate_limit c app h :
  agentTimerRef app = Some h →
  let app' := handleError c "RATE_LIMIT" app in
  timers app'
  = List.filter (λ t, negb (handle t =? h)%nat) (timers app)
    ++ [mkTimer (nextHandle app) false 60000 (ResumeAgent c)]
  ∧ agentStatus app' = COOLDOWN
  ∧ type <$> head (agentLogs app') = Some ERROR.
Proof.
  intros Href. unfold handleError. simpl.
  unfold clear_agent_timer. simpl. rewrite Href. repeat split.
Qed.

(** The resumption consults the closure, not the state. *)
Lemma resume_reads_closure c io app :
  isActive (c_agentConfig c) = true →
  run_callback (ResumeAgent c) io app
  = start_agent c io (addAgentLog [Text "Cooldown Complete. Resuming Agent..."] INFO app).
Proof. intros Hc. simpl. rewrite Hc. reflexivity. Qed.

Lemma ResetTimeframe_keeps_status tf io app :
  agentStatus (run_callback (ResetTimeframe tf) io app) = agentStatus app.
Proof. reflexivity. Qed.

(** C7.  The agent is activated and its first cycle is rate limited: the
    periodic timer is cancelled, an error is logged and a single 60 s
    timer is pending.  The agent is then deactivated.  When the 60 s timer
    fires the agent is inactive, and yet a cycle runs and the periodic
    timer is armed again. *)
Theorem rate_limit_resumes_inactive_agent :
  let c := mkClosure IDLE (mkConfig true 60 75 1) "XAUUSD" in
  let app1 := toggleAgent rate_limited_cycle mounted in
  let app2 := toggleAgent flat_cycle app1 in
  let app3 := fire 2 flat_cycle app2 in
  timers app1 = [mkTimer 2 false 60000 (ResumeAgent c)]
  ∧ type <$> head (agentLogs app1) = Some ERROR
  ∧ isActive (agentConfig app2) = false
  ∧ agentStatus app2 = IDLE
  ∧ timers app2 = [mkTimer 2 false 60000 (ResumeAgent c)]
  ∧ isActive (agentConfig app3) = false
  ∧ agentStatus app3 = COOLDOWN
  ∧ timers app3 = [mkTimer 3 true 60000 (RunAgentCycle c);
                   mkTimer 4 false 1000 (ResetTimeframe "15m")].
Proof. vm_compute. repeat split. Qed.

(** C8.  The agent is activated and its first cycle decides EXECUTE: the
    state is EXECUTING, the success entry is logged and a 2 s timer is
    pending.  When that timer fires the chart is back on 15m and the
    state is still EXECUTING, not COOLDOWN. *)
Theorem execute_never_cools_down :
  let c := mkClosure IDLE (mkConfig true 60 75 1) "XAUUSD" in
  let app1 := toggleAgent buy_cycle mounted in
  let app2 := fire 2 buy_cycle app1 in
  decide Action.BUY 80 75 = EXECUTE
  ∧ agentStatus app1 = EXECUTING
  ∧ head (agentLogs app1)
    = Some (mkLog [Text "SCALP SIGNAL: "; Act Action.BUY; Text " @ "; Num 2000.5;
                   Text " (Conf: "; Num 80; Text "%)"] SUCCESS)
  ∧ timers app1 = [mkTimer 1 true 60000 (RunAgentCycle c);
                   mkTimer 2 false 2000 (ResetTimeframe "15m")]
  ∧ chartRef app2 = Some "15m"
  ∧ timers app2 = [mkTimer 1 true 60000 (RunAgentCycle c)]
  ∧ agentStatus app2 = EXECUTING.
Proof. vm_compute. repeat split. Qed.

(** The paths that skip or reject do reach COOLDOWN. *)
Example flat_cycle_cools_down :
  agentStatus (toggleAgent flat_cycle mounted) = COOLDOWN.
Proof. reflexivity. Qed.

End AgentProofs.

Module AnalysisViewProofs.
Import PaperTrading Agent AnalysisView.

(** The position of an agent signal is opened by the analysis view, when
    its bridge status is IDLE; the confidence is not consulted. *)
Lemma autoExecution_opens env result v :
  TradeExecution.action (execution result) ≠ Action.WAIT →
  bridgeStatus v = IDLE →
  autoExecution true env result v
  = mkView SENDING
           (executePaperTrade env (execution result) (assetName result) (ledger v)).2.
Proof.
  intros Hact Hidle. unfold autoExecution, handlePaperExecute.
  rewrite Hidle, (bool_decide_eq_false_2 _ Hact). reflexivity.
Qed.

Lemma autoExecution_after_fill env result v :
  autoExecution true env result (bridge_filled v) = bridge_filled v.
Proof.
  unfold autoExecution. simpl. rewrite andb_false_r. reflexivity.
Qed.

End AnalysisViewProofs.

Module GeminiProofs.
Import Gemini.

Lemma get_absent (o : option JSObject) k : absent o k → get o k = JUndefined.
Proof. destruct o as [o|]; simpl; [intros ->|]; reflexivity. Qed.

Lemma default_absent (o : option JSObject) k : absent o k → default ∅ o !! k = None.
Proof. destruct o as [o|]; simpl; [intros ->; reflexivity | intros _; apply lookup_empty]. Qed.

(** C9 (as stated).  For a response that carries only action and
    confidenceScore, [analyzeCharts] returns an execution object without
    takeProfit2. *)
Lemma chartsResult_takeProfit2_missing :
  ¬ monetary_fields_defaulted (price gold_context) (execution bare_buy)
      (r_execution (chartsResult (Some gold_context) bare_buy)).
Proof.
  intros (_ & _ & _ & Htp2).
  assert (Habs : absent (execution bare_buy) "takeProfit2") by reflexivity.
  specialize (Htp2 Habs). vm_compute in Htp2. discriminate Htp2.
Qed.

(** On the agent path the same response comes back without stopLoss,
    takeProfit1 and takeProfit2. *)
Example agentResult_not_defaulted :
  let result := r_execution (agentResult "XAUUSD" 2000.5 bare_buy) in
  result !! "entryPrice" = Some (JNumber 2000.5)
  ∧ result !! "stopLoss" = None
  ∧ result !! "takeProfit1" = None
  ∧ result !! "takeProfit2" = None.
Proof. vm_compute. repeat split. Qed.

(** C9 (amended).  [analyzeCharts] returns every field of the response's
    execution object as it is; an absent entryPrice becomes the live price
    (0 when there is none), an absent stopLoss or takeProfit1 becomes 0.
    An absent takeProfit2 stays absent, in the result of
    [analyzeMultiTimeframeAgent] as well, which always sets entryPrice to
    the live price. *)
Theorem gateway_defaults marketContext data_symbol data_livePrice (parsed : Parsed) :
  let response := execution parsed in
  let manual := r_execution (chartsResult marketContext parsed) in
  let agent := r_execution (agentResult data_symbol data_livePrice parsed) in
  (∀ k v, default ∅ response !! k = Some v → manual !! k = Some v)
  ∧ (absent response "entryPrice" →
       manual !! "entryPrice"
       = Some match marketContext with
              | Some m => if truthy (JNumber (price m)) then JNumber (price m) else JNumber 0
              | None => JNumber 0
              end)
  ∧ (absent response "stopLoss" → manual !! "stopLoss" = Some (JNumber 0))
  ∧ (absent response "takeProfit1" → manual !! "takeProfit1" = Some (JNumber 0))
  ∧ (absent response "takeProfit2" →
       manual !! "takeProfit2" = None ∧ agent !! "takeProfit2" = None)
  ∧ agent !! "entryPrice" = Some (JNumber data_livePrice).
Proof.
  intros response manual agent. unfold manual, agent, chartsResult, agentResult.
  cbn [r_execution]. fold response.
  split; [|split; [|split; [|split; [|split]]]].
  - intros k v Hk. apply lookup_union_Some_l, Hk.
  - intros Habs. rewrite lookup_union_r by (apply default_absent, Habs).
    rewrite !lookup_insert_ne by done. rewrite lookup_insert_eq.
    rewrite (get_absent _ _ Habs). f_equal.
    destruct marketContext as [m|]; reflexivity.
  - intros Habs. rewrite lookup_union_r by (apply default_absent, Habs).
    rewrite !lookup_insert_ne by done. rewrite lookup_insert_eq.
    rewrite (get_absent _ _ Habs). reflexivity.
  - intros Habs. rewrite lookup_union_r by (apply default_absent, Habs).
    rewrite !lookup_insert_ne by done. rewrite lookup_insert_eq.
    rewrite (get_absent _ _ Habs). reflexivity.
  - intros Habs. split.
    + rewrite lookup_union_r by (apply default_absent, Habs).
      rewrite !lookup_insert_ne by done. apply lookup_empty.
    + rewrite lookup_insert_ne by done. apply default_absent, Habs.
  - apply lookup_insert_eq.
Qed.

Lemma gateway_defaults_witness :
  let manual := r_execution (chartsResult (Some gold_context) bare_buy) in
  absent (execution bare_buy) "entryPrice"
  ∧ absent (execution bare_buy) "stopLoss"
  ∧ manual !! "entryPrice" = Some (JNumber 2000.5)
  ∧ manual !! "stopLoss" = Some (JNumber 0)
  ∧ manual !! "action" = Some (JString "BUY").
Proof.
  intros manual.
  assert (H1 : absent (execution bare_buy) "entryPrice") by reflexivity.
  assert (H2 : absent (execution bare_buy) "stopLoss") by reflexivity.
  destruct (gateway_defaults (Some gold_context) "XAUUSD" 2000.5 bare_buy)
    as (Hkeep & Hentry & Hsl & _).
  split; [exact H1|]. split; [exact H2|]. split; [exact (Hentry H1)|].
  split; [exact (Hsl H2)|]. apply Hkeep. reflexivity.
Defined.

(** *** The rate-limit signal *)

Lemma analyzeMultiTimeframeAgent_rate_limit symbol livePrice e :
  is_rate_limit e = true →
  analyzeMultiTimeframeAgent true symbol livePrice (Rejected e) = inr "RATE_LIMIT".
Proof.
  intros He. unfold analyzeMultiTimeframeAgent, rethrow. rewrite He. reflexivity.
Qed.

Example quota_error_is_rate_limit :
  analyzeMultiTimeframeAgent true "XAUUSD" 2000.5
    (Rejected (mkCaught "ApiError: got status: 429 Too Many Requests" None
                        (Some "RESOURCE_EXHAUSTED")))
  = inr "RATE_LIMIT".
Proof. reflexivity. Qed.

Example empty_response_is_not_rate_limit :
  analyzeMultiTimeframeAgent true "XAUUSD" 2000.5 NoText
  = inr "Agent failed to correlate timeframes. Please check chart data.".
Proof. reflexivity. Qed.

End GeminiProofs.

Module LedgerFrameProofs.
Import AccountState PaperTrading LedgerSpec LedgerFrames LedgerProofs.

(** *** Listeners *)

Lemma unsubscribe_unknown l L : l ∉ listeners L → unsubscribe l L = L.
Proof.
  intros Hl. unfold unsubscribe.
  destruct (list_find _ _) as [[i l']|] eqn:Hfind; [|reflexivity].
  apply list_find_Some in Hfind as (Hi & -> & _).
  exfalso. apply Hl. eapply list_elem_of_lookup_2, Hi.
Qed.

Lemma delete_last_added {A} (xs : list A) x : delete (length xs) (xs ++ [x]) = xs.
Proof. induction xs as [|y xs IH]; simpl; [reflexivity | f_equal; exact IH]. Qed.

Lemma list_find_last_added (ls : list Listener) l :
  l ∉ ls → list_find (λ l', l' = l) (ls ++ [l]) = Some (length ls, l).
Proof.
  intros Hl. rewrite list_find_app_r.
  - simpl. rewrite decide_True by reflexivity. simpl. reflexivity.
  - apply list_find_None, Forall_forall. intros l' Hl' ->. exact (Hl Hl').
Qed.

(** X1.  A listener that is not registered is called exactly once, with the
    current state, when it subscribes, and unsubscribing it afterwards
    restores the registrations; unsubscribing a listener that is not
    registered changes nothing, and unsubscribing never touches the account
    or the calls already made. *)
Theorem subscribe_then_unsubscribe l (L : Ledger) :
  l ∉ listeners L →
  unsubscribe l L = L
  ∧ delivered (subscribeToAccountUpdates l L) = delivered L ++ [(l, accountState L)]
  ∧ unsubscribe l (subscribeToAccountUpdates l L)
    = mkLedger (accountState L) (listeners L) (delivered L ++ [(l, accountState L)])
  ∧ unsubscribe l (unsubscribe l (subscribeToAccountUpdates l L))
    = unsubscribe l (subscribeToAccountUpdates l L).
Proof.
  intros Hl.
  assert (Hun : unsubscribe l (subscribeToAccountUpdates l L)
                = mkLedger (accountState L) (listeners L)
                           (delivered L ++ [(l, accountState L)])).
  { unfold unsubscribe, subscribeToAccountUpdates. cbn [listeners accountState delivered].
    rewrite (list_find_last_added _ _ Hl), delete_last_added. reflexivity. }
  split; [apply unsubscribe_unknown, Hl|]. split; [reflexivity|]. split; [exact Hun|].
  rewrite Hun. apply unsubscribe_unknown. exact Hl.
Qed.

Lemma subscribe_then_unsubscribe_witness :
  (7%nat ∉ listeners eurusd_ledger)
  ∧ listeners (unsubscribe 7%nat (subscribeToAccountUpdates 7 eurusd_ledger)) = [0%nat].
Proof.
  assert (H : 7%nat ∉ listeners eurusd_ledger).
  { apply (bool_decide_unpack _). vm_compute. exact I. }
  split; [exact H|].
  destruct (subscribe_then_unsubscribe 7%nat eurusd_ledger H) as (_ & _ & -> & _).
  reflexivity.
Defined.

(** *** Who is told what *)

Lemma executePaperTrade_delivered env execution asset L :
  let L' := (executePaperTrade env execution asset L).2 in
  listeners L' = listeners L
  ∧ (L' = L ∨ delivered L' = delivered L ++ broadcast (accountState L') (listeners L)).
Proof.
  unfold executePaperTrade. destruct (as_side _); simpl; split; auto.
Qed.

Lemma closePosition_delivered id L :
  let L' := closePosition id L in
  listeners L' = listeners L
  ∧ (L' = L ∨ delivered L' = delivered L ++ broadcast (accountState L') (listeners L)).
Proof.
  unfold closePosition. destruct (list_find _ _) as [[i p]|]; simpl; split; auto.
Qed.

Lemma tickMarket_delivered random L :
  let L' := tickMarket random L in
  listeners L' = listeners L
  ∧ (L' = L ∨ delivered L' = delivered L ++ broadcast (accountState L') (listeners L)).
Proof.
  unfold tickMarket. destruct (decide _); simpl; split; auto.
Qed.

(** X2.  [executePaperTrade], [closePosition] and [tickMarket] never change
    the registrations, and each of them either leaves the whole ledger as it
    was or calls every registered listener exactly once, in registration
    order, with the state the operation ends in. *)
Theorem operations_notify_everyone_once (L : Ledger) :
  (∀ env execution asset,
      let L' := (executePaperTrade env execution asset L).2 in
      listeners L' = listeners L
      ∧ (L' = L ∨ delivered L' = delivered L ++ broadcast (accountState L') (listeners L)))
  ∧ (∀ id,
      let L' := closePosition id L in
      listeners L' = listeners L
      ∧ (L' = L ∨ delivered L' = delivered L ++ broadcast (accountState L') (listeners L)))
  ∧ (∀ random,
      let L' := tickMarket random L in
      listeners L' = listeners L
      ∧ (L' = L ∨ delivered L' = delivered L ++ broadcast (accountState L') (listeners L))).
Proof.
  split; [|split].
  - intros env execution asset. apply executePaperTrade_delivered.
  - intros id. apply closePosition_delivered.
  - intros random. apply tickMarket_delivered.
Qed.

Lemma broadcast_invariant a ls :
  account_invariant a → Forall (λ d, account_invariant d.2) (broadcast a ls).
Proof.
  intros Ha. unfold broadcast. rewrite Forall_map. apply Forall_forall. intros l _. exact Ha.
Qed.

Lemma delivered_step L L' :
  Forall (λ d, account_invariant d.2) (delivered L) →
  account_invariant (accountState L') →
  L' = L ∨ delivered L' = delivered L ++ broadcast (accountState L') (listeners L) →
  Forall (λ d, account_invariant d.2) (delivered L').
Proof.
  intros HL HL' [->| ->]; [exact HL|].
  apply Forall_app. split; [exact HL | apply broadcast_invariant, HL'].
Qed.

Lemma delivered_invariant L :
  reachable L → Forall (λ d, account_invariant d.2) (delivered L).
Proof.
  induction 1 as [|l L HL IH|l L HL IH|env execution asset L HL IH Hfresh
                  |id L HL IH|random L HL IH].
  - constructor.
  - simpl. apply Forall_app. split; [exact IH|].
    constructor; [|constructor]. apply (reachable_well_formed L HL).
  - unfold unsubscribe. destruct (list_find _ _) as [[? ?]|]; exact IH.
  - eapply delivered_step; [exact IH | |apply executePaperTrade_delivered].
    apply executePaperTrade_invariant, (reachable_well_formed L HL).
  - eapply delivered_step; [exact IH | |apply closePosition_delivered].
    apply closePosition_invariant, (reachable_well_formed L HL).
  - eapply delivered_step; [exact IH | |apply tickMarket_delivered].
    apply tickMarket_invariant, (reachable_well_formed L HL).
Qed.

Lemma account_invariant_consistent a : account_invariant a → account_consistent a.
Proof. intros Ha. split; [exact Ha | apply account_invariant_equations, Ha]. Qed.

(** X3.  In every ledger that the operations can reach, and in every
    account state ever handed to a listener, equity is the number that
    balance + Σ pnl evaluates to and freeMargin the number that equity −
    marginUsed evaluates to (NaN included), so that the two equations hold
    under [==] exactly when freeMargin is not NaN.  Every listed position
    is OPEN and the positions carry distinct identifiers. *)
Theorem reachable_ledger_consistent (L : Ledger) :
  reachable L →
  account_consistent (accountState L)
  ∧ all_open (positions (accountState L))
  ∧ NoDup (ids (positions (accountState L)))
  ∧ Forall (λ d, account_consistent d.2) (delivered L).
Proof.
  intros HL.
  destruct (reachable_well_formed L HL) as (Hinv & Hopen & Hnd).
  split; [apply account_invariant_consistent, Hinv|].
  split; [exact Hopen|]. split; [exact Hnd|].
  eapply Forall_impl; [apply delivered_invariant, HL|].
  intros d. apply account_invariant_consistent.
Qed.

Lemma gold_ledger_reachable : reachable gold_ledger.
Proof.
  unfold gold_ledger, eurusd_ledger.
  apply reach_execute; [apply reach_execute; [apply reach_subscribe, reach_init|]|].
  - apply (bool_decide_unpack _). vm_compute. exact I.
  - apply (bool_decide_unpack _). vm_compute. exact I.
Defined.

Lemma reachable_ledger_consistent_witness :
  reachable gold_ledger
  ∧ Forall (λ d, account_consistent d.2) (delivered gold_ledger)
  ∧ length (delivered gold_ledger) = 3%nat
  ∧ account_equations (accountState gold_ledger) = true.
Proof.
  destruct (reachable_ledger_consistent gold_ledger gold_ledger_reachable)
    as ([_ Heq] & _ & _ & Hsent).
  split; [exact gold_ledger_reachable|]. split; [exact Hsent|]. split; [reflexivity|].
  rewrite Heq. reflexivity.
Defined.

(** *** Opening and closing at once *)

(** X4.  Closing a position right after opening it restores the open
    positions and adds its pnl of 0 to the balance, but the margin taken at
    the opening stays in marginUsed; the listeners are called once for the
    opening and once for the closing. *)
Theorem open_then_close env execution asset (L : Ledger) :
  TradeExecution.action execution ≠ Action.WAIT →
  let opened := (executePaperTrade env execution asset L).2 in
  let closed := closePosition (randomUUID env) opened in
  positions (accountState closed) = positions (accountState L)
  ∧ balance (accountState closed) = balance (accountState L) + 0
  ∧ marginUsed (accountState closed)
    = marginUsed (accountState L) + margin_scaled execution
  ∧ delivered closed
    = (delivered L ++ broadcast (accountState opened) (listeners L))
      ++ broadcast (accountState closed) (listeners L).
Proof.
  intros Hact opened closed. unfold closed, opened, executePaperTrade, closePosition.
  destruct (as_side (TradeExecution.action execution)) as [side|] eqn:Hside.
  - cbn [snd accountState notifyListeners updateEquity positions list_find
         TradePosition.id fmap option_fmap option_map].
    rewrite decide_True by reflexivity.
    cbn. repeat split.
  - apply as_side_None in Hside. contradiction.
Qed.

Lemma open_then_close_witness :
  TradeExecution.action eurusd_buy ≠ Action.WAIT
  ∧ positions (accountState
                 (closePosition (randomUUID entropy1)
                    (executePaperTrade entropy1 eurusd_buy "EURUSD" initialLedger).2)) = []
  ∧ marginUsed (accountState
                  (closePosition (randomUUID entropy1)
                     (executePaperTrade entropy1 eurusd_buy "EURUSD" initialLedger).2))
    = 0 + margin_scaled eurusd_buy.
Proof.
  assert (H : TradeExecution.action eurusd_buy ≠ Action.WAIT) by discriminate.
  split; [exact H|].
  destruct (open_then_close entropy1 eurusd_buy "EURUSD" initialLedger H) as (H1 & _ & H3 & _).
  split; [exact H1 | exact H3].
Defined.

(** *** What a tick and a closing keep *)

Lemma markToMarket_same_trade r p : same_trade p (markToMarket r p).
Proof.
  unfold same_trade, markToMarket.
  destruct (TradePosition.type p); repeat case_match; repeat split.
Qed.

Lemma ids_filter_marked (f : TradePosition.t → bool) ds :
  sublist (ids (List.filter f (map mark ds))) (ids (map snd ds)).
Proof.
  unfold ids. induction ds as [|d ds IH]; simpl; [constructor|].
  destruct (f (mark d)); simpl.
  - unfold mark at 1. rewrite markToMarket_id. apply sublist_skip, IH.
  - apply sublist_cons, IH.
Qed.

(** X5.  Neither a tick nor a closing creates a position or reorders the
    open ones: the identifiers afterwards are a sublist of those before, and
    every position left by a tick is one of the earlier positions with its
    id, ticket, asset, side, entry price, stops, lots and opening time
    unchanged. *)
Theorem tick_and_close_keep_trades (L : Ledger) :
  (∀ id, sublist (ids (positions (accountState (closePosition id L))))
                 (ids (positions (accountState L))))
  ∧ (∀ random,
       sublist (ids (positions (accountState (tickMarket random L))))
               (ids (positions (accountState L)))
       ∧ ∀ q, q ∈ positions (accountState (tickMarket random L)) →
              ∃ p, p ∈ positions (accountState L) ∧ same_trade p q).
Proof.
  split.
  - intros id. unfold closePosition.
    destruct (list_find _ _) as [[i p]|]; simpl; [|reflexivity].
    rewrite ids_delete. apply sublist_delete.
  - intros random. unfold tickMarket.
    destruct (decide _) as [_|_].
    { split; [reflexivity|]. intros q Hq. exists q. split; [exact Hq|].
      repeat split. }
    cbn [accountState notifyListeners updateEquity positions].
    rewrite imap_draws. split.
    + rewrite <- (draws_snd random (positions (accountState L))) at 2.
      apply ids_filter_marked.
    + intros q Hq. apply list_elem_of_In, filter_In in Hq as [Hq _].
      apply in_map_iff in Hq as (d & <- & Hd).
      exists d.2. split; [|apply markToMarket_same_trade].
      rewrite <- (draws_snd random (positions (accountState L))).
      apply list_elem_of_In, in_map_iff. exists d. split; [reflexivity | exact Hd].
Qed.

End LedgerFrameProofs.

Module AgentInvariants.
Import Agent AgentSpec.

(** *** Properties kept by everything the agent does

    A property of [App] that the state setters, the log and the timer
    operations keep is kept by a cycle, by a timer firing and by the agent
    toggle. *)
Section Preservation.

Variable P : App → Prop.
Variable T : string → Prop.

Hypothesis P_status : ∀ s app, P app → P (setAgentStatus s app).
Hypothesis P_config : ∀ cfg app, P app → P (setAgentConfig cfg app).
Hypothesis P_result : ∀ r app, P app → P (setAnalysisResult r app).
Hypothesis P_log : ∀ m t app, P app → P (addAgentLog m t app).
Hypothesis P_ref : ∀ r app, P app → P (set_agentTimerRef r app).
Hypothesis P_timeframe : ∀ tf app, T tf → P app → P (setTimeframe tf app).
Hypothesis P_add :
  ∀ per cb d app, callback_ok T cb → P app → P (add_timer per cb d app).2.
Hypothesis P_clear : ∀ h app, P app → P (clearInterval h app).
Hypothesis P_pending : ∀ app t, P app → t ∈ timers app → callback_ok T (callback t).
Hypothesis T_4h : T "4h".
Hypothesis T_15m : T "15m".
Hypothesis T_1m : T "1m".

Lemma clear_agent_timer_kept app : P app → P (clear_agent_timer app).
Proof. intros H. unfold clear_agent_timer. destruct (agentTimerRef app); auto. Qed.

Lemma captureFrame_kept tf cap app : T tf → P app → P (captureFrame tf cap app).2.
Proof.
  intros Htf H. unfold captureFrame.
  destruct (chartRef app); simpl; [|exact H].
  destruct (ready cap); simpl; auto.
Qed.

Lemma executionLogic_kept c result app : P app → P (executionLogic c result app).
Proof.
  intros H. unfold executionLogic.
  destruct (negb _); [destruct (geb _ _)|]; auto.
  apply (P_add false); [exact T_15m | auto].
Qed.

Lemma handleError_kept c msg app : P app → P (handleError c msg app).
Proof.
  intros H. unfold handleError. destruct (bool_decide _); auto.
  apply (P_add false); [exact I|]. apply clear_agent_timer_kept. auto.
Qed.

Lemma runAgentCycle_kept c io app : P app → P (runAgentCycle c io app).
Proof.
  intros H. unfold runAgentCycle.
  destruct (_ || _); [exact H|].
  pose proof (captureFrame_kept "4h" (capture_htf io) _ T_4h (P_status SCANNING_HTF _ H)) as H1.
  destruct (captureFrame "4h" _ _) as [[htf|] app1]; simpl in H1;
    [|apply handleError_kept, H1].
  pose proof (captureFrame_kept "15m" (capture_mtf io) _ T_15m (P_status SCANNING_MTF _ H1))
    as H2.
  destruct (captureFrame "15m" _ _) as [[ltf|] app2]; simpl in H2;
    [|apply handleError_kept, H2].
  pose proof (captureFrame_kept "1m" (capture_1m io) _ T_1m (P_status SCANNING_1m _ H2))
    as H3.
  destruct (captureFrame "1m" _ _) as [[vltf|] app3]; simpl in H3;
    [|apply handleError_kept, H3].
  destruct (negb _).
  - apply (P_add false); [exact T_15m | auto].
  - destruct (analysis io) as [result|msg].
    + apply executionLogic_kept. auto.
    + apply handleError_kept. auto.
Qed.

Lemma start_agent_kept c io app : P app → P (start_agent c io app).
Proof.
  intros H. unfold start_agent.
  pose proof (P_add true (RunAgentCycle c)
                    (intervalSeconds (c_agentConfig c) * 1000)%float app I H) as H1.
  unfold setInterval. destruct (add_timer _ _ _ _) as [h app1]. simpl in H1.
  apply runAgentCycle_kept, P_ref, H1.
Qed.

Lemma run_callback_kept cb io app :
  callback_ok T cb → P app → P (run_callback cb io app).
Proof.
  intros Hcb H. destruct cb as [c|c|tf]; simpl.
  - apply runAgentCycle_kept, H.
  - destruct (isActive _); [apply start_agent_kept|]; auto.
  - apply P_timeframe; assumption.
Qed.

Lemma fire_kept h io app : P app → P (fire h io app).
Proof.
  intros H. unfold fire.
  destruct (list_find _ _) as [[i t]|] eqn:Hfind; [|exact H].
  apply list_find_Some in Hfind as (Hi & _ & _).
  assert (Hcb : callback_ok T (callback t)).
  { eapply P_pending; [exact H|]. eapply list_elem_of_lookup_2, Hi. }
  apply run_callback_kept; [exact Hcb|]. destruct (periodic t); auto.
Qed.

Lemma toggleAgent_kept io app : P app → P (toggleAgent io app).
Proof.
  intros H. unfold toggleAgent. cbn zeta.
  destruct (isActive (mkConfig _ _ _ _)).
  - apply start_agent_kept, P_log, clear_agent_timer_kept, P_config, H.
  - apply P_log, P_status, clear_agent_timer_kept, clear_agent_timer_kept, P_config, H.
Qed.

End Preservation.

(** *** The log *)

Lemma addAgentLog_bounded m t app : logs_bounded (addAgentLog m t app).
Proof.
  unfold logs_bounded, addAgentLog. cbn [agentLogs]. rewrite length_take. lia.
Qed.

Ltac logs_kept :=
  intros;
  first [ exact I
        | assumption
        | apply addAgentLog_bounded
        | match goal with |- callback_ok _ ?cb => destruct cb; exact I end ].

(** X6.  The agent log never grows beyond 50 entries: a cycle, a timer
    firing and the agent toggle all keep it within 50, whatever the cycle
    meets. *)
Theorem agent_log_bounded io (app : App) :
  logs_bounded app →
  logs_bounded (toggleAgent io app)
  ∧ (∀ h, logs_bounded (fire h io app))
  ∧ (∀ c, logs_bounded (runAgentCycle c io app)).
Proof.
  intros H.
  split; [|split]; [|intros h|intros c].
  - apply (toggleAgent_kept logs_bounded (λ _, True)); logs_kept.
  - apply (fire_kept logs_bounded (λ _, True)); logs_kept.
  - apply (runAgentCycle_kept logs_bounded (λ _, True)); logs_kept.
Qed.

Lemma agent_log_bounded_witness :
  logs_bounded mounted
  ∧ logs_bounded (toggleAgent buy_cycle mounted)
  ∧ logs_bounded (fire 1 rate_limited_cycle (toggleAgent buy_cycle mounted)).
Proof.
  assert (H0 : logs_bounded mounted) by (unfold logs_bounded; simpl; lia).
  destruct (agent_log_bounded buy_cycle mounted H0) as (H1 & _ & _).
  split; [exact H0|]. split; [exact H1|].
  exact (proj1 (proj2 (agent_log_bounded rate_limited_cycle _ H1)) 1%nat).
Defined.

(** *** The timeframe on show *)

Lemma Forall_List_filter {A} (Q : A → Prop) f (l : list A) :
  Forall Q l → Forall Q (List.filter f l).
Proof.
  induction 1 as [|x l Hx _ IH]; simpl; [constructor|].
  destruct (f x); [constructor|]; assumption.
Qed.

Lemma setTimeframe_supported tf app :
  TradingChart.listed tf = true →
  timeframe_supported app → timeframe_supported (setTimeframe tf app).
Proof.
  intros Htf [Hc Ht]. split; [|exact Ht].
  intros tf'. unfold setTimeframe. cbn [chartRef].
  destruct (chartRef app); [|discriminate]. intros [= <-]. exact Htf.
Qed.

Lemma add_timer_supported per cb d app :
  callback_ok (λ tf, TradingChart.listed tf = true) cb →
  timeframe_supported app → timeframe_supported (add_timer per cb d app).2.
Proof.
  intros Hcb [Hc Ht]. split; [exact Hc|].
  unfold add_timer. cbn [snd timers]. apply Forall_app. split; [exact Ht|].
  constructor; [exact Hcb | constructor].
Qed.

Lemma clearInterval_supported h app :
  timeframe_supported app → timeframe_supported (clearInterval h app).
Proof.
  intros [Hc Ht]. split; [exact Hc|]. unfold clearInterval. cbn [timers].
  apply Forall_List_filter, Ht.
Qed.

Lemma pending_supported app t :
  timeframe_supported app → t ∈ timers app →
  callback_ok (λ tf, TradingChart.listed tf = true) (callback t).
Proof.
  intros [_ Ht] Hin. rewrite Forall_forall in Ht. exact (Ht _ Hin).
Qed.

Ltac timeframe_kept :=
  intros;
  first [ reflexivity
        | assumption
        | apply setTimeframe_supported; assumption
        | apply add_timer_supported; assumption
        | apply clearInterval_supported; assumption
        | eapply pending_supported; eassumption ].

Lemma listed_supported tf :
  TradingChart.listed tf = true → TradingChart.supported tf = true.
Proof.
  unfold TradingChart.listed, TradingChart.supported. intros Hl.
  apply bool_decide_eq_true in Hl as [v Hv]. rewrite Hv.
  apply elem_of_list_to_map_2 in Hv.
  repeat (apply elem_of_cons in Hv as [[= -> ->]|Hv]; [reflexivity|]).
  apply elem_of_nil in Hv. contradiction.
Qed.

(** X8.  The timeframes the agent asks the chart for (4h, 15m, 1m) are all
    keys of the chart's TIMEFRAME_MAP, so the chart never ignores a
    request: if the timeframe on show is such a key and no pending timer
    would show another, the same holds after a cycle, a timer firing and
    the agent toggle; every key of TIMEFRAME_MAP is a supported timeframe;
    and the chart's own [setTimeframe] does switch to a supported
    timeframe. *)
Theorem agent_timeframes_supported io (app : App) :
  timeframe_supported app →
  timeframe_supported (toggleAgent io app)
  ∧ (∀ h, timeframe_supported (fire h io app))
  ∧ (∀ c, timeframe_supported (runAgentCycle c io app))
  ∧ (∀ tf, TradingChart.listed tf = true → TradingChart.supported tf = true)
  ∧ (∀ tf ch, TradingChart.supported tf = true →
              TradingChart.activeTimeframe (TradingChart.setTimeframe tf ch) = tf).
Proof.
  intros H.
  split; [|split; [|split; [|split; [exact listed_supported|]]]]; [|intros h|intros c|].
  - apply (toggleAgent_kept timeframe_supported (λ tf, TradingChart.listed tf = true));
      timeframe_kept.
  - apply (fire_kept timeframe_supported (λ tf, TradingChart.listed tf = true));
      timeframe_kept.
  - apply (runAgentCycle_kept timeframe_supported (λ tf, TradingChart.listed tf = true));
      timeframe_kept.
  - intros tf ch Htf. unfold TradingChart.setTimeframe. rewrite Htf. reflexivity.
Qed.

Lemma agent_timeframes_supported_witness :
  timeframe_supported mounted
  ∧ timeframe_supported (toggleAgent buy_cycle mounted).
Proof.
  assert (H0 : timeframe_supported mounted).
  { split; [|constructor]. intros tf [= <-]. reflexivity. }
  split; [exact H0|].
  exact (proj1 (agent_timeframes_supported buy_cycle mounted H0)).
Defined.

End AgentInvariants.

Module CycleProofs.
Import Agent AgentSpec.

Lemma untouched_refl app : untouched app app.
Proof. repeat split. Qed.

Lemma untouched_trans a b c : untouched a b → untouched b c → untouched a c.
Proof.
  unfold untouched. intros (?&?&?&?&?&?) (?&?&?&?&?&?). repeat split; congruence.
Qed.

Lemma captureFrame_mounted tf cap app :
  chartRef app ≠ None →
  ∃ app', captureFrame tf cap app = (snapshot cap, app')
          ∧ chartRef app' = Some tf
          ∧ untouched app app'.
Proof.
  intros Hc. unfold captureFrame.
  destruct (chartRef app) as [tf0|] eqn:Hch; [|congruence].
  eexists. split; [reflexivity|].
  destruct (ready cap); cbn [negb]; unfold setTimeframe; cbn [chartRef addAgentLog];
    rewrite Hch; repeat split.
Qed.

(** A cycle that passes its guard, capture by capture. *)
Lemma runAgentCycle_captures c io app :
  guard_passes c app →
  ∃ app1 app2 app3,
    untouched app app1 ∧ untouched app app2 ∧ untouched app app3
    ∧ chartRef app3 = Some "1m"
    ∧ runAgentCycle c io app
      = match snapshot (capture_htf io) with
        | None => handleError c "Failed to capture HTF" app1
        | Some _ =>
          match snapshot (capture_mtf io) with
          | None => handleError c "Failed to capture MTF" app2
          | Some _ =>
            match snapshot (capture_1m io) with
            | None => handleError c "Failed to capture 1m" app3
            | Some vltf => after_captures c io vltf app3
            end
          end
        end.
Proof.
  intros [Hs Hc]. unfold runAgentCycle.
  rewrite (bool_decide_eq_false_2 _ Hs), (bool_decide_eq_false_2 _ Hc). cbn [orb].
  destruct (captureFrame_mounted "4h" (capture_htf io) (setAgentStatus SCANNING_HTF app) Hc)
    as (app1 & -> & Hc1 & Hu1).
  assert (Hc1' : chartRef (setAgentStatus SCANNING_MTF app1) ≠ None)
    by (cbn [chartRef setAgentStatus]; congruence).
  destruct (captureFrame_mounted "15m" (capture_mtf io) _ Hc1') as (app2 & -> & Hc2 & Hu2).
  assert (Hc2' : chartRef (setAgentStatus SCANNING_1m app2) ≠ None)
    by (cbn [chartRef setAgentStatus]; congruence).
  destruct (captureFrame_mounted "1m" (capture_1m io) _ Hc2') as (app3 & -> & Hc3 & Hu3).
  exists app1, app2, app3.
  assert (U1 : untouched app app1) by exact Hu1.
  assert (U2 : untouched app app2) by (eapply untouched_trans; [exact U1 | exact Hu2]).
  assert (U3 : untouched app app3) by (eapply untouched_trans; [exact U2 | exact Hu3]).
  repeat (split; [assumption|]). reflexivity.
Qed.

Lemma handleError_status c msg app : agentStatus (handleError c msg app) = COOLDOWN.
Proof.
  unfold handleError, clear_agent_timer. destruct (bool_decide _); [|reflexivity].
  cbn [agentTimerRef setAgentStatus addAgentLog]. destruct (agentTimerRef app); reflexivity.
Qed.

(** X9.  A cycle that passes its guard never leaves the agent scanning or
    analyzing: it ends in EXECUTING when all three captures succeed, the 1m
    candles are active and the analysis returns a signal that the policy
    executes, and in COOLDOWN in every other case, errors included. *)
Theorem cycle_ends_executing_or_cooldown c io (app : App) :
  guard_passes c app →
  agentStatus (runAgentCycle c io app)
  = if executes c io then EXECUTING else COOLDOWN.
Proof.
  intros Hg.
  destruct (runAgentCycle_captures c io app Hg) as (app1 & app2 & app3 & _ & _ & _ & _ & ->).
  unfold executes, after_captures.
  destruct (snapshot (capture_htf io)); [|apply handleError_status].
  destruct (snapshot (capture_mtf io)); [|apply handleError_status].
  destruct (snapshot (capture_1m io)) as [vltf|]; [|apply handleError_status].
  destruct (ActivityFilter.isMarketActive (recentCandles vltf)); cbn [negb andb].
  - destruct (analysis io) as [result|msg]; [|apply handleError_status].
    rewrite AgentProofs.executionLogic_decide, AgentProofs.act_on_status.
    destruct (decide _ _ _); reflexivity.
  - destruct (analysis io); reflexivity.
Qed.

Lemma cycle_ends_executing_or_cooldown_witness :
  guard_passes (mkClosure IDLE (mkConfig true 60 75 1) "XAUUSD") mounted
  ∧ agentStatus (runAgentCycle (mkClosure IDLE (mkConfig true 60 75 1) "XAUUSD")
                               no_chart_data mounted) = COOLDOWN.
Proof.
  assert (H : guard_passes (mkClosure IDLE (mkConfig true 60 75 1) "XAUUSD") mounted).
  { split; discriminate. }
  split; [exact H|].
  exact (cycle_ends_executing_or_cooldown _ no_chart_data mounted H).
Defined.

Lemma handleError_plain c msg app :
  msg ≠ "RATE_LIMIT" →
  let app' := handleError c msg app in
  agentStatus app' = COOLDOWN
  ∧ head (agentLogs app') = Some (mkLog [Text "Agent Error: "; Text msg] ERROR)
  ∧ untouched app app'.
Proof.
  intros Hne. cbn zeta. rewrite (AgentProofs.handleError_other c msg app Hne).
  repeat split.
Qed.

(** X10.  When one of the three captures yields no snapshot, a cycle that
    passes its guard logs "Agent Error: Failed to capture …" for the first
    capture that failed and ends in COOLDOWN; it arms and cancels no timer,
    keeps the previous analysis result, and does not depend on what the
    analysis would have answered. *)
Theorem cycle_capture_failure c io (app : App) msg :
  guard_passes c app →
  capture_failure io = Some msg →
  let app' := runAgentCycle c io app in
  agentStatus app' = COOLDOWN
  ∧ head (agentLogs app') = Some (mkLog [Text "Agent Error: "; Text msg] ERROR)
  ∧ untouched app app'
  ∧ ∀ a, runAgentCycle c (with_analysis a io) app = app'.
Proof.
  intros Hg Hfail app'.
  assert (Hall : agentStatus app' = COOLDOWN
                 ∧ head (agentLogs app') = Some (mkLog [Text "Agent Error: "; Text msg] ERROR)
                 ∧ untouched app app').
  { unfold app'.
    destruct (runAgentCycle_captures c io app Hg)
      as (app1 & app2 & app3 & U1 & U2 & U3 & _ & ->).
    unfold capture_failure in Hfail.
    destruct (snapshot (capture_htf io)).
    - destruct (snapshot (capture_mtf io)).
      + destruct (snapshot (capture_1m io)); [discriminate|].
        injection Hfail as <-.
        destruct (handleError_plain c "Failed to capture 1m" app3) as (H1 & H2 & H3);
          [discriminate|].
        split; [exact H1|]. split; [exact H2|]. exact (untouched_trans _ _ _ U3 H3).
      + injection Hfail as <-.
        destruct (handleError_plain c "Failed to capture MTF" app2) as (H1 & H2 & H3);
          [discriminate|].
        split; [exact H1|]. split; [exact H2|]. exact (untouched_trans _ _ _ U2 H3).
    - injection Hfail as <-.
      destruct (handleError_plain c "Failed to capture HTF" app1) as (H1 & H2 & H3);
        [discriminate|].
      split; [exact H1|]. split; [exact H2|]. exact (untouched_trans _ _ _ U1 H3). }
  destruct Hall as (H1 & H2 & H3). repeat (split; [assumption|]).
  intros a. unfold app', runAgentCycle.
  destruct io as [c1 c2 c3 a0]. unfold capture_failure in Hfail. cbn in Hfail |- *.
  destruct (_ || _); [reflexivity|].
  destruct (captureFrame "4h" c1 _) as [[htf|] app1] eqn:E1; [|reflexivity].
  destruct (captureFrame "15m" c2 _) as [[ltf|] app2] eqn:E2; [|reflexivity].
  destruct (captureFrame "1m" c3 _) as [[vltf|] app3] eqn:E3; [|reflexivity].
  exfalso.
  unfold captureFrame in E1, E2, E3.
  destruct (chartRef _) in E1; [|discriminate].
  destruct (chartRef _) in E2; [|discriminate].
  destruct (chartRef _) in E3; [|discriminate].
  injection E1 as E1 _. injection E2 as E2 _. injection E3 as E3 _.
  rewrite E1, E2, E3 in Hfail. discriminate.
Qed.

Lemma cycle_capture_failure_witness :
  let c := mkClosure IDLE (mkConfig true 60 75 1) "XAUUSD" in
  guard_passes c mounted
  ∧ capture_failure no_chart_data = Some "Failed to capture MTF"
  ∧ head (agentLogs (runAgentCycle c no_chart_data mounted))
    = Some (mkLog [Text "Agent Error: "; Text "Failed to capture MTF"] ERROR)
  ∧ runAgentCycle c (with_analysis (inr "RATE_LIMIT") no_chart_data) mounted
    = runAgentCycle c no_chart_data mounted.
Proof.
  intros c.
  assert (Hg : guard_passes c mounted) by (split; discriminate).
  assert (Hf : capture_failure no_chart_data = Some "Failed to capture MTF") by reflexivity.
  destruct (cycle_capture_failure c no_chart_data mounted _ Hg Hf) as (_ & H2 & _ & H4).
  split; [exact Hg|]. split; [exact Hf|]. split; [exact H2 | apply H4].
Defined.

(** X11.  When the three captures succeed and the 1m candles are not
    active, a cycle that passes its guard skips the analysis: it logs the
    low-volatility warning, ends in COOLDOWN with the chart on 1m, keeps the
    previous analysis result, arms exactly one timer, a one-shot of 1000 ms
    that puts the chart back on 15m, and does not depend on what the
    analysis would have answered. *)
Theorem cycle_skips_flat_market c io (app : App) :
  guard_passes c app →
  market_flat io →
  let app' := runAgentCycle c io app in
  agentStatus app' = COOLDOWN
  ∧ head (agentLogs app')
    = Some (mkLog [Text "Market Flat (Low Volatility). Skipping API Call to save quota."]
                  WARNING)
  ∧ chartRef app' = Some "1m"
  ∧ analysisResult app' = analysisResult app
  ∧ agentTimerRef app' = agentTimerRef app
  ∧ timers app' = timers app ++ [mkTimer (nextHandle app) false 1000 (ResetTimeframe "15m")]
  ∧ ∀ a, runAgentCycle c (with_analysis a io) app = app'.
Proof.
  intros Hg ([htf Hh] & [ltf Hl] & vltf & Hv & Hflat) app'.
  assert (Hflat' : ∀ a, market_flat (with_analysis a io)).
  { intros a. split; [eexists; exact Hh|]. split; [eexists; exact Hl|].
    exists vltf. split; assumption. }
  assert (Hrun : ∀ io', capture_htf io' = capture_htf io → capture_mtf io' = capture_mtf io →
                        capture_1m io' = capture_1m io →
                        ∃ app3, untouched app app3 ∧ chartRef app3 = Some "1m"
                                ∧ captureFrame "1m" (capture_1m io)
                                    (setAgentStatus SCANNING_1m
                                       (captureFrame "15m" (capture_mtf io)
                                          (setAgentStatus SCANNING_MTF
                                             (captureFrame "4h" (capture_htf io)
                                                (setAgentStatus SCANNING_HTF app)).2)).2)
                                  = (Some vltf, app3)
                                ∧ runAgentCycle c io' app
                                  = (setTimeout (ResetTimeframe "15m") 1000
                                       (setAgentStatus COOLDOWN
                                          (addAgentLog
                                             [Text "Market Flat (Low Volatility). Skipping API Call to save quota."]
                                             WARNING app3))).2).
  { intros io' E1 E2 E3. destruct Hg as [Hs Hc]. unfold runAgentCycle.
    rewrite (bool_decide_eq_false_2 _ Hs), (bool_decide_eq_false_2 _ Hc). cbn [orb].
    rewrite E1, E2, E3.
    destruct (captureFrame_mounted "4h" (capture_htf io) (setAgentStatus SCANNING_HTF app) Hc)
      as (app1 & -> & Hc1 & Hu1). rewrite Hh. cbn [snd].
    assert (Hc1' : chartRef (setAgentStatus SCANNING_MTF app1) ≠ None)
      by (cbn [chartRef setAgentStatus]; congruence).
    destruct (captureFrame_mounted "15m" (capture_mtf io) _ Hc1') as (app2 & -> & Hc2 & Hu2).
    rewrite Hl. cbn [snd].
    assert (Hc2' : chartRef (setAgentStatus SCANNING_1m app2) ≠ None)
      by (cbn [chartRef setAgentStatus]; congruence).
    destruct (captureFrame_mounted "1m" (capture_1m io) _ Hc2') as (app3 & -> & Hc3 & Hu3).
    rewrite Hv, Hflat. cbn [negb].
    exists app3. split; [|split; [exact Hc3|split; reflexivity]].
    eapply untouched_trans; [|exact Hu3]. eapply untouched_trans; [exact Hu1 | exact Hu2]. }
  destruct (Hrun io eq_refl eq_refl eq_refl) as (app3 & (U1&U2&U3&U4&U5&U6) & Hc3 & Heq & Hr).
  unfold app'. rewrite Hr.
  split; [reflexivity|]. split; [reflexivity|]. split; [exact Hc3|].
  split; [exact U2|]. split; [exact U4|]. split.
  - unfold setTimeout, add_timer. cbn [snd timers nextHandle setAgentStatus addAgentLog].
    rewrite U5, U6. reflexivity.
  - intros a.
    destruct (Hrun (with_analysis a io) eq_refl eq_refl eq_refl)
      as (app3' & _ & _ & Heq' & Hr').
    rewrite Hr'. rewrite Heq in Heq'. injection Heq' as <-. reflexivity.
Qed.

Lemma cycle_skips_flat_market_witness :
  let c := mkClosure IDLE (mkConfig true 60 75 1) "XAUUSD" in
  guard_passes c mounted
  ∧ market_flat flat_cycle
  ∧ timers (runAgentCycle c flat_cycle mounted)
    = [mkTimer 1 false 1000 (ResetTimeframe "15m")]
  ∧ runAgentCycle c (with_analysis (inl buy_80) flat_cycle) mounted
    = runAgentCycle c flat_cycle mounted.
Proof.
  intros c.
  assert (Hg : guard_passes c mounted) by (split; discriminate).
  assert (Hf : market_flat flat_cycle).
  { split; [eexists; reflexivity|]. split; [eexists; reflexivity|].
    eexists. split; reflexivity. }
  destruct (cycle_skips_flat_market c flat_cycle mounted Hg Hf)
    as (_ & _ & _ & _ & _ & H6 & H7).
  split; [exact Hg|]. split; [exact Hf|]. split; [exact H6 | apply H7].
Defined.

(** X12.  The guard of a cycle reads the status of the render that created
    it, not the current one: a cycle created while the status was EXECUTING
    does nothing at all, and any other cycle (with a chart) runs the same
    way whatever the current status is, EXECUTING included. *)
Theorem cycle_guard_reads_closure c io (app : App) :
  (c_agentStatus c = EXECUTING → runAgentCycle c io app = app)
  ∧ (guard_passes c app →
     ∀ s, runAgentCycle c io (setAgentStatus s app) = runAgentCycle c io app).
Proof.
  split.
  - intros Hs. unfold runAgentCycle. rewrite (bool_decide_eq_true_2 _ Hs). reflexivity.
  - intros [Hs Hc] s. unfold runAgentCycle. cbn [chartRef setAgentStatus].
    rewrite (bool_decide_eq_false_2 _ Hs), (bool_decide_eq_false_2 _ Hc). reflexivity.
Qed.

Lemma cycle_guard_reads_closure_witness :
  let c := mkClosure IDLE (mkConfig true 60 75 1) "XAUUSD" in
  guard_passes c mounted
  ∧ agentStatus (runAgentCycle c buy_cycle (setAgentStatus EXECUTING mounted)) = EXECUTING
  ∧ agentLogs (runAgentCycle c buy_cycle (setAgentStatus EXECUTING mounted))
    = agentLogs (runAgentCycle c buy_cycle mounted).
Proof.
  intros c.
  assert (Hg : guard_passes c mounted) by (split; discriminate).
  split; [exact Hg|].
  rewrite (proj2 (cycle_guard_reads_closure c buy_cycle mounted) Hg EXECUTING).
  split; reflexivity.
Defined.

Lemma List_filter_twice {A} (f : A → bool) (l : list A) :
  List.filter f (List.filter f l) = List.filter f l.
Proof.
  induction l as [|x l IH]; simpl; [reflexivity|].
  destruct (f x) eqn:Hx; simpl; [rewrite Hx, IH|]; auto.
Qed.

(** X22.  Deactivating the agent never runs a cycle: the state becomes
    IDLE, the deactivation is logged, and the only timer cancelled is the
    periodic one named by [agentTimerRef]; every other pending timer, a
    rate-limit resumption included, stays armed, and the analysis result
    and the chart are left alone. *)
Theorem deactivation_cancels_only_the_interval io (app : App) :
  isActive (agentConfig app) = true →
  let app' := toggleAgent io app in
  isActive (agentConfig app') = false
  ∧ agentStatus app' = IDLE
  ∧ head (agentLogs app') = Some (mkLog [Text "Agent Deactivated."] WARNING)
  ∧ timers app'
    = match agentTimerRef app with
      | Some h => List.filter (λ t, negb (handle t =? h)%nat) (timers app)
      | None => timers app
      end
  ∧ (∀ t, t ∈ timers app → Some (handle t) ≠ agentTimerRef app → t ∈ timers app')
  ∧ analysisResult app' = analysisResult app
  ∧ chartRef app' = chartRef app
  ∧ ∀ io', toggleAgent io' app = app'.
Proof.
  intros Hact app'. unfold app', toggleAgent. rewrite Hact. cbn [negb isActive].
  unfold clear_agent_timer.
  destruct app as [st cfg logs res sym [h|] ch tms nh]; cbn; rewrite ?List_filter_twice.
  - repeat split. intros t Ht Hne.
    apply list_elem_of_In, filter_In. split; [apply list_elem_of_In, Ht|].
    apply negb_true_iff, Nat.eqb_neq. congruence.
  - repeat split. intros t Ht _. exact Ht.
Qed.

Lemma deactivation_cancels_only_the_interval_witness :
  let paused := toggleAgent rate_limited_cycle mounted in
  isActive (agentConfig paused) = true
  ∧ agentStatus (toggleAgent buy_cycle paused) = IDLE
  ∧ timers (toggleAgent buy_cycle paused) = timers paused.
Proof.
  intros paused.
  assert (H : isActive (agentConfig paused) = true) by reflexivity.
  destruct (deactivation_cancels_only_the_interval buy_cycle paused H)
    as (_ & H2 & _ & H4 & _).
  split; [exact H|]. split; [exact H2|]. rewrite H4. reflexivity.
Defined.

End CycleProofs.

Module AnalysisViewEventProofs.
Import PaperTrading Agent AnalysisView AnalysisViewEvents.

Lemma run_after_first_order events v :
  bridgeStatus v ≠ IDLE → ledger (run events v) = ledger v.
Proof.
  revert v. induction events as [|e events IH]; intros v Hv; [reflexivity|].
  unfold run in *. simpl.
  destruct e as [autoExecute env result|]; simpl.
  - unfold autoExecution. rewrite (bool_decide_eq_false_2 _ Hv), !andb_false_r.
    apply IH, Hv.
  - rewrite IH by discriminate. reflexivity.
Qed.

(** X13.  A mounted analysis view places at most one order by itself: over
    any sequence of new results and fill timers the ledger either stays as
    it was or receives the single [executePaperTrade] of one result, and
    once the bridge status has left IDLE no later result is executed. *)
Theorem auto_execution_at_most_once events (v : View) :
  (bridgeStatus v ≠ IDLE → ledger (run events v) = ledger v)
  ∧ (ledger (run events v) = ledger v
     ∨ ∃ env result,
         In (Rendered true env result) events
         ∧ TradeExecution.action (execution result) ≠ Action.WAIT
         ∧ ledger (run events v)
           = (executePaperTrade env (execution result) (assetName result) (ledger v)).2).
Proof.
  split; [apply run_after_first_order|].
  revert v. induction events as [|e events IH]; intros v; [left; reflexivity|].
  unfold run in *. simpl.
  destruct e as [autoExecute env result|]; simpl.
  - unfold autoExecution, handlePaperExecute.
    destruct autoExecute; cbn [andb];
      [|destruct (IH v) as [H|(env' & r' & Hin & Hr)]; [left|right; exists env', r']; auto].
    destruct (bool_decide (TradeExecution.action (execution result) = Action.WAIT)) eqn:Hwait;
      cbn [negb andb];
      [destruct (IH v) as [H|(env' & r' & Hin & Hr)]; [left|right; exists env', r']; auto|].
    destruct (bool_decide (bridgeStatus v = IDLE));
      [|destruct (IH v) as [H|(env' & r' & Hin & Hr)]; [left|right; exists env', r']; auto].
    right. exists env, result. split; [left; reflexivity|].
    split; [apply bool_decide_eq_false in Hwait; exact Hwait|].
    apply (run_after_first_order events (mkView SENDING _)). discriminate.
  - left. apply (run_after_first_order events (bridge_filled v)). discriminate.
Qed.

Lemma auto_execution_at_most_once_witness :
  let v := mkView SUCCESS LedgerSpec.eurusd_ledger in
  bridgeStatus v ≠ IDLE
  ∧ ledger (run [Rendered true LedgerSpec.entropy2 buy_80; Filled;
                 Rendered true LedgerSpec.entropy2 buy_80] v)
    = LedgerSpec.eurusd_ledger.
Proof.
  intros v.
  assert (H : bridgeStatus v ≠ IDLE) by discriminate.
  split; [exact H|].
  exact (proj1 (auto_execution_at_most_once _ v) H).
Defined.

End AnalysisViewEventProofs.

Module GeminiTextProofs.
Import Gemini GeminiText.

(** *** Substrings *)

Lemma prefix_spec needle hay :
  String.prefix needle hay = true ↔ ∃ post, hay = needle +:+ post.
Proof.
  revert hay. induction needle as [|a needle IH]; intros hay; simpl.
  - split; [intros _; exists hay; reflexivity | intros _; destruct hay; reflexivity].
  - destruct hay as [|b hay]; simpl; [split; [discriminate | intros [post [=]]]|].
    destruct (ascii_dec a b) as [->|Hab].
    + rewrite IH. split.
      * intros [post ->]. exists post. reflexivity.
      * intros [post H]. exists post. simpl in H. injection H as H. exact H.
    + split; [discriminate|]. intros [post [= Hb _]]. congruence.
Qed.

Lemma includes_spec needle hay : includes needle hay = true ↔ contains needle hay.
Proof.
  unfold contains. induction hay as [|b hay IH]; cbn [includes].
  - rewrite orb_false_r, prefix_spec. split.
    + intros [post H]. exists "", post. exact H.
    + intros (pre & post & H). destruct pre; [exists post; exact H | discriminate].
  - rewrite orb_true_iff, prefix_spec, IH. split.
    + intros [[post H]|(pre & post & H)].
      * exists "", post. exact H.
      * exists (String b pre), post. rewrite H. reflexivity.
    + intros (pre & post & H). destruct pre as [|a pre].
      * left. exists post. exact H.
      * right. injection H as _ H. exists pre, post. exact H.
Qed.

(** X14.  [analyzeMultiTimeframeAgent] throws RATE_LIMIT exactly when an
    API key is set and the model call or the parsing of its answer fails
    with an error whose text or message contains "429" anywhere, or whose
    status is RESOURCE_EXHAUSTED; an empty or a parsed answer never does,
    and [analyzeCharts] never reports a failed call or answer as
    RATE_LIMIT. *)
Theorem rate_limit_signal apiKey symbol livePrice reply :
  (analyzeMultiTimeframeAgent apiKey symbol livePrice reply = inr "RATE_LIMIT"
   ↔ apiKey = true
     ∧ ∃ e, (reply = Rejected e ∨ reply = Unparsable e)
            ∧ (contains "429" (toString e)
               ∨ (∃ m, message e = Some m ∧ contains "429" m)
               ∨ status e = Some "RESOURCE_EXHAUSTED"))
  ∧ (∀ marketContext, analyzeCharts apiKey marketContext reply ≠ inr "RATE_LIMIT").
Proof.
  assert (Hrl : ∀ e, rethrow e = "RATE_LIMIT"
                     ↔ contains "429" (toString e)
                       ∨ (∃ m, message e = Some m ∧ contains "429" m)
                       ∨ status e = Some "RESOURCE_EXHAUSTED").
  { intros e. unfold rethrow, is_rate_limit.
    rewrite <- includes_spec.
    destruct (includes "429" (toString e)); [split; [auto | reflexivity]|].
    cbn [orb]. destruct (message e) as [m|].
    - destruct (includes "429" m) eqn:Hm.
      + split; [|reflexivity]. intros _. right. left. exists m.
        split; [reflexivity | apply includes_spec, Hm].
      + cbn [orb]. destruct (bool_decide _) eqn:Hst.
        * split; [|reflexivity]. intros _. right. right.
          apply bool_decide_eq_true in Hst. exact Hst.
        * split; [discriminate|]. apply bool_decide_eq_false in Hst.
          intros [H|[(m' & [= <-] & H)|H]]; [discriminate| |contradiction].
          apply includes_spec in H. congruence.
    - cbn [orb]. destruct (bool_decide _) eqn:Hst.
      + split; [|reflexivity]. intros _. right. right.
        apply bool_decide_eq_true in Hst. exact Hst.
      + split; [discriminate|]. apply bool_decide_eq_false in Hst.
        intros [H|[(m' & [=] & _)|H]]; [discriminate | contradiction]. }
  split.
  - unfold analyzeMultiTimeframeAgent. destruct apiKey; cbn [negb].
    + destruct reply as [e|  |e|parsed].
      * split.
        -- intros Heq. injection Heq as Hr. split; [reflexivity|]. exists e.
           split; [left; reflexivity|]. apply Hrl, Hr.
        -- intros (_ & e' & [He|He] & Hc); [injection He as <-|discriminate].
           f_equal. apply Hrl, Hc.
      * split; [discriminate|]. intros (_ & e' & [He|He] & _); discriminate.
      * split.
        -- intros Heq. injection Heq as Hr. split; [reflexivity|]. exists e.
           split; [right; reflexivity|]. apply Hrl, Hr.
        -- intros (_ & e' & [He|He] & Hc); [discriminate|injection He as <-].
           f_equal. apply Hrl, Hc.
      * split; [discriminate|]. intros (_ & e' & [He|He] & _); discriminate.
    + split; [discriminate|]. intros [He _]. discriminate.
  - intros marketContext. unfold analyzeCharts.
    destruct apiKey; cbn [negb]; [destruct reply|]; discriminate.
Qed.

Example syntax_error_at_429_is_rate_limit :
  analyzeMultiTimeframeAgent true "XAUUSD" 2000.5
    (Unparsable (mkCaught "SyntaxError: Unexpected token } in JSON at position 429"
                          (Some "Unexpected token } in JSON at position 429") None))
  = inr "RATE_LIMIT".
Proof. reflexivity. Qed.

(** *** Padding *)

Lemma length_append s t :
  String.length (s +:+ t) = (String.length s + String.length t)%nat.
Proof. induction s as [|a s IH]; simpl; [reflexivity | rewrite IH; reflexivity]. Qed.

Lemma length_string_of_list l :
  String.length (String.string_of_list_ascii l) = length l.
Proof. induction l as [|a l IH]; simpl; [reflexivity | rewrite IH; reflexivity]. Qed.

Lemma append_empty s : s +:+ "" = s.
Proof.
  induction s as [|a s IH]; [reflexivity|].
  change (String a s +:+ "") with (String a (s +:+ "")). rewrite IH. reflexivity.
Qed.

Lemma pad_length encoded : (String.length (pad encoded) mod 4 = 0)%nat.
Proof.
  unfold pad. destruct (Nat.ltb_spec 0 (String.length encoded mod 4)) as [Hpos|Hzero].
  - rewrite length_append, length_string_of_list, length_replicate.
    pose proof (Nat.div_mod_eq (String.length encoded) 4) as Hdiv.
    pose proof (Nat.mod_upper_bound (String.length encoded) 4 ltac:(lia)) as Hlt.
    replace (String.length encoded + (4 - String.length encoded mod 4))%nat
      with ((String.length encoded / 4 + 1) * 4)%nat by lia.
    apply Nat.Div0.mod_mul.
  - lia.
Qed.

(** X15.  The text [getFileBase64] resolves to always has a length that is
    a multiple of 4: the padding step appends at most three "=" signs and
    nothing else, leaves a text of the right length as it is, and padding
    twice is padding once. *)
Theorem base64_padding encoded :
  (String.length (pad encoded) mod 4 = 0)%nat
  ∧ (∃ k, (k ≤ 3)%nat
          ∧ pad encoded = encoded +:+ String.string_of_list_ascii (replicate k "="%char))
  ∧ ((String.length encoded mod 4 = 0)%nat → pad encoded = encoded)
  ∧ pad (pad encoded) = pad encoded.
Proof.
  split; [apply pad_length|].
  assert (Hfix : ∀ s, (String.length s mod 4 = 0)%nat → pad s = s).
  { intros s Hs. unfold pad. rewrite Hs. reflexivity. }
  split; [|split; [apply Hfix | apply Hfix, pad_length]].
  unfold pad. destruct (Nat.ltb_spec 0 (String.length encoded mod 4)) as [Hpos|Hzero].
  - exists (4 - String.length encoded mod 4)%nat. split; [lia | reflexivity].
  - exists 0%nat. split; [lia|]. simpl. rewrite append_empty. reflexivity.
Qed.

Lemma base64_padding_witness :
  (String.length "aGVsbG8gd29ybGQh" mod 4 = 0)%nat
  ∧ pad "aGVsbG8gd29ybGQh" = "aGVsbG8gd29ybGQh"
  ∧ pad "aGVsbG8" = "aGVsbG8=".
Proof.
  split; [reflexivity|]. split; [|reflexivity].
  exact (proj1 (proj2 (proj2 (base64_padding "aGVsbG8gd29ybGQh"))) eq_refl).
Defined.

(** *** What the two gateways return *)

(** X16.  [analyzeMultiTimeframeAgent] overrides exactly four things of the
    parsed answer: assetName, currentPrice and searchPrice at the top level
    (the request's symbol, the live price and 0) and entryPrice inside
    execution (the live price).  Every other field, at the top level and in
    execution, is returned as the model gave it, and a field the model left
    out is left out. *)
Theorem agentResult_passes_through symbol livePrice (parsed : Parsed) :
  let result := agentResult symbol livePrice parsed in
  r_fields result !! "assetName" = Some (JString symbol)
  ∧ r_fields result !! "currentPrice" = Some (JNumber livePrice)
  ∧ r_fields result !! "searchPrice" = Some (JNumber 0)
  ∧ r_execution result !! "entryPrice" = Some (JNumber livePrice)
  ∧ (∀ k, k ≠ "assetName" → k ≠ "currentPrice" → k ≠ "searchPrice" →
          r_fields result !! k = fields parsed !! k)
  ∧ (∀ k, k ≠ "entryPrice" →
          r_execution result !! k = default ∅ (execution parsed) !! k).
Proof.
  intros result. unfold result, agentResult. cbn [r_fields r_execution].
  split; [rewrite !lookup_insert_ne by done; apply lookup_insert_eq|].
  split; [rewrite lookup_insert_ne by done; apply lookup_insert_eq|].
  split; [apply lookup_insert_eq|]. split; [apply lookup_insert_eq|]. split.
  - intros k H1 H2 H3. rewrite !lookup_insert_ne by congruence. reflexivity.
  - intros k H. rewrite lookup_insert_ne by congruence. reflexivity.
Qed.

Lemma agentResult_passes_through_witness :
  ("stopLoss" : string) ≠ "entryPrice"
  ∧ r_execution (agentResult "XAUUSD" 2000.5 bare_buy) !! "stopLoss" = None.
Proof.
  assert (H : ("stopLoss" : string) ≠ "entryPrice") by discriminate.
  split; [exact H|].
  rewrite (proj2 (proj2 (proj2 (proj2 (proj2
             (agentResult_passes_through "XAUUSD" 2000.5 bare_buy))))) "stopLoss" H).
  reflexivity.
Defined.

(** X17.  [analyzeCharts] always returns an execution object with action,
    confidenceScore, entryPrice, stopLoss and takeProfit1 present; when the
    answer has no execution object at all, that object is exactly the
    signal WAIT with confidence 0, the live price (or 0) as entry and 0 for
    stopLoss and takeProfit1. *)
Theorem chartsResult_always_a_signal marketContext (parsed : Parsed) :
  let result := r_execution (chartsResult marketContext parsed) in
  (∀ k, k ∈ ["action"; "confidenceScore"; "entryPrice"; "stopLoss"; "takeProfit1"] →
        is_Some (result !! k))
  ∧ (execution parsed = None →
     result
     = <["action" := JString "WAIT"]>
         (<["confidenceScore" := JNumber 0]>
            (<["entryPrice" :=
                 match marketContext with
                 | Some m => if truthy (JNumber (price m)) then JNumber (price m)
                             else JNumber 0
                 | None => JNumber 0
                 end]>
               (<["stopLoss" := JNumber 0]> (<["takeProfit1" := JNumber 0]> ∅))))).
Proof.
  intros result. unfold result, chartsResult. cbn [r_execution]. split.
  - intros k Hk. apply lookup_union_is_Some. right.
    repeat (apply elem_of_cons in Hk as [->|Hk];
            [rewrite ?lookup_insert_ne by done; rewrite lookup_insert_eq; eauto|]).
    apply elem_of_nil in Hk. contradiction.
  - intros ->. cbn [default get]. rewrite (left_id ∅ (∪)).
    destruct marketContext as [m|]; reflexivity.
Qed.

Lemma chartsResult_always_a_signal_witness :
  let parsed := mkParsed (<["assetName" := JString "XAUUSD"]> ∅) None in
  execution parsed = None
  ∧ r_execution (chartsResult (Some gold_context) parsed) !! "action" = Some (JString "WAIT")
  ∧ r_execution (chartsResult (Some gold_context) parsed) !! "entryPrice"
    = Some (JNumber 2000.5).
Proof.
  intros parsed.
  assert (H : execution parsed = None) by reflexivity.
  split; [exact H|].
  rewrite (proj2 (chartsResult_always_a_signal (Some gold_context) parsed) H).
  split; reflexivity.
Defined.

End GeminiTextProofs.

Module BridgeProofs.
Import PaperTrading Agent Bridge.

(** X18.  An enabled bridge accepts exactly the signals for which the paper
    ledger opens a position (BUY and SELL, never WAIT); a disabled bridge
    rejects every signal; a trade id is given exactly when the order is
    accepted; and the payload quotes the signal's entry, stop and both take
    profits unchanged. *)
Theorem bridge_accepts_what_the_ledger_opens random env execution asset config (L : Ledger) :
  let reply := executeTradeOnBridge random execution asset config in
  let sent := payload execution asset config in
  (success reply = true
   ↔ isEnabled config = true ∧ is_Some (executePaperTrade env execution asset L).1)
  ∧ (is_Some (tradeId reply) ↔ success reply = true)
  ∧ (isEnabled config = false →
     reply = mkReply false [Text "Bridge is disabled in settings."] None)
  ∧ price sent = TradeExecution.entryPrice execution
  ∧ sl sent = TradeExecution.stopLoss execution
  ∧ tp1 sent = TradeExecution.takeProfit1 execution
  ∧ tp2 sent = TradeExecution.takeProfit2 execution
  ∧ volume sent = TradeExecution.lotSizeCalculation execution.
Proof.
  intros reply sent. unfold reply, sent, executeTradeOnBridge, executePaperTrade, payload.
  destruct (isEnabled config); cbn [negb];
    destruct (TradeExecution.action execution); cbn;
    repeat split; try discriminate; try reflexivity; eauto;
    try (intros [? ?]; discriminate);
    try (intros [_ [? ?]]; discriminate);
    try (intros [? _]; discriminate).
Qed.

Lemma bridge_accepts_what_the_ledger_opens_witness :
  isEnabled (mkBridge "" "" false) = false
  ∧ executeTradeOnBridge 0.5 LedgerSpec.gold_buy "XAUUSD" (mkBridge "" "" false)
    = mkReply false [Text "Bridge is disabled in settings."] None
  ∧ success (executeTradeOnBridge 0.5 LedgerSpec.gold_buy "XAUUSD" live_bridge) = true.
Proof.
  split; [reflexivity|]. split; [|reflexivity].
  exact (proj1 (proj2 (proj2 (bridge_accepts_what_the_ledger_opens
                                0.5 LedgerSpec.entropy1 LedgerSpec.gold_buy "XAUUSD"
                                (mkBridge "" "" false) initialLedger))) eq_refl).
Defined.

End BridgeProofs.

Module TradingChartProofs.
Import TradingChart.

(** [setTimeframe] switches to the keys of TIMEFRAME_MAP and to the names
    of the members it inherits, and ignores everything else. *)
Example setTimeframe_examples :
  map (λ tf, activeTimeframe (setTimeframe tf sample_chart)) ["4h"; "toString"; "2h"; ""]
  = ["4h"; "toString"; "15m"; "15m"].
Proof. reflexivity. Qed.

Lemma last_insert_last {A} (l : list A) x y :
  last l = Some y → last (<[(length l - 1)%nat := x]> l) = Some x.
Proof.
  intros Hl. apply last_Some in Hl as [l' ->].
  rewrite length_app. simpl.
  replace (length l' + 1 - 1)%nat with (length l' + 0)%nat by lia.
  rewrite insert_app_r. simpl. apply last_snoc.
Qed.

Lemma last_tail_snoc {A} (l : list A) x : last (tail (l ++ [x])) = last (l ++ [x]) ∨ l = [].
Proof.
  destruct l as [|y l]; [right; reflexivity|left].
  change (tail ((y :: l) ++ [x])) with (l ++ [x]).
  rewrite (last_snoc x l), (last_snoc x (y :: l)). reflexivity.
Qed.



(** X19.  The candle buffer of the chart holds at most 100 candles once it
    does: an update never makes it longer than 100, never empties it, and
    always leaves the candle just received as its last element (replacing
    the last one when the times are equal, appending and dropping the
    oldest otherwise). *)
Theorem candle_buffer_bounded candle (buf : list CandleData.t) :
  (length buf ≤ 100)%nat →
  (length (updateBuffer candle buf) ≤ 100)%nat
  ∧ (1 ≤ length (updateBuffer candle buf))%nat
  ∧ (length buf ≤ length (updateBuffer candle buf))%nat
  ∧ last (updateBuffer candle buf) = Some candle.
Proof.
  intros Hlen.
  assert (Hpush : ∀ b, b = buf ++ [candle] →
            let pushed := if (100 <? length b)%nat then tail b else b in
            (length pushed ≤ 100)%nat ∧ (1 ≤ length pushed)%nat
            ∧ (length buf ≤ length pushed)%nat ∧ last pushed = Some candle).
  { intros b ->. cbn zeta. rewrite length_app. simpl.
    destruct (Nat.ltb_spec 100 (length buf + 1)) as [Hfull|Hroom].
    - rewrite length_tl, length_app. simpl.
      repeat split; try lia.
      destruct (last_tail_snoc buf candle) as [->| ->]; [apply last_snoc|].
      simpl in Hfull. lia.
    - rewrite length_app. simpl. repeat split; try lia. apply last_snoc. }
  unfold updateBuffer.
  destruct (last buf) as [lastBuffered|] eqn:Hlast; [|apply Hpush; reflexivity].
  destruct (PrimFloat.eqb _ _); [|apply Hpush; reflexivity].
  rewrite length_insert.
  assert (1 ≤ length buf)%nat.
  { apply last_Some in Hlast as [l' ->]. rewrite length_app. simpl. lia. }
  repeat split; try lia. eapply last_insert_last, Hlast.
Qed.

Lemma candle_buffer_bounded_witness :
  (length [ActivityFilter.bar_flat] ≤ 100)%nat
  ∧ last (updateBuffer ActivityFilter.bar_lively [ActivityFilter.bar_flat])
    = Some ActivityFilter.bar_lively
  ∧ length (updateBuffer ActivityFilter.bar_lively [ActivityFilter.bar_flat]) = 1%nat.
Proof.
  assert (H : (length [ActivityFilter.bar_flat] ≤ 100)%nat) by (simpl; lia).
  split; [exact H|]. split; [|reflexivity].
  exact (proj2 (proj2 (proj2 (candle_buffer_bounded ActivityFilter.bar_lively _ H)))).
Defined.



End TradingChartProofs.

Module MarketTickerProofs.
Import ObjectLiteral MarketTicker.

(** *** The record of updates *)

Lemma record_set_keys key value r :
  map fst (record_set key value r)
  = if bool_decide (key ∈ map fst r) then map fst r else map fst r ++ [key].
Proof.
  induction r as [|[k v] r IH]; [reflexivity|]. simpl.
  destruct (bool_decide (k = key)) eqn:Hk.
  - apply bool_decide_eq_true in Hk as ->. simpl.
    rewrite bool_decide_eq_true_2 by (apply elem_of_cons; left; reflexivity). reflexivity.
  - apply bool_decide_eq_false in Hk. simpl. rewrite IH.
    destruct (bool_decide (key ∈ map fst r)) eqn:Hin.
    + apply bool_decide_eq_true in Hin.
      rewrite bool_decide_eq_true_2 by (apply elem_of_cons; right; exact Hin). reflexivity.
    + apply bool_decide_eq_false in Hin.
      rewrite bool_decide_eq_false_2; [reflexivity|].
      intros [?|?]%elem_of_cons; [congruence | contradiction].
Qed.

Lemma record_set_NoDup key value r :
  NoDup (map fst r) → NoDup (map fst (record_set key value r)).
Proof.
  intros Hnd. rewrite record_set_keys.
  destruct (bool_decide _) eqn:Hin; [exact Hnd|].
  apply bool_decide_eq_false in Hin.
  apply NoDup_app. split; [exact Hnd|]. split; [|apply NoDup_singleton].
  intros k Hk ->%list_elem_of_singleton. contradiction.
Qed.

Lemma record_set_keyed key value r :
  symbol value = key → key ∈ order → keyed r → keyed (record_set key value r).
Proof.
  intros Hs Hk. induction 1 as [|[k v] r [Hv Hko] Hr IH]; simpl.
  - constructor; [split; assumption | constructor].
  - destruct (bool_decide (k = key)) eqn:E.
    + apply bool_decide_eq_true in E as ->. constructor; [split; assumption | exact Hr].
    + constructor; [split; assumption | exact IH].
Qed.

Lemma record_set_has key value r : key ∈ map fst (record_set key value r).
Proof.
  rewrite record_set_keys. destruct (bool_decide _) eqn:Hin.
  - apply bool_decide_eq_true in Hin. exact Hin.
  - apply elem_of_app. right. apply list_elem_of_singleton. reflexivity.
Qed.

Lemma record_set_keeps key value r k : k ∈ map fst r → k ∈ map fst (record_set key value r).
Proof.
  intros Hk. rewrite record_set_keys. destruct (bool_decide _); [exact Hk|].
  apply elem_of_app. left. exact Hk.
Qed.

Lemma displayName_known sym :
  sym ∈ order → ∃ label, displayName sym = Some (Name label) ∧ label ≠ "".
Proof.
  unfold order. simpl. intros H.
  repeat (apply elem_of_cons in H as [->|H]; [eexists; split; [reflexivity | discriminate]|]).
  apply elem_of_nil in H. contradiction.
Qed.

Lemma displayName_order sym label : displayName sym = Some (Name label) → sym ∈ order.
Proof.
  unfold displayName. destruct (List.find _ _) as [[k v]|] eqn:Hf.
  - intros _. apply find_some in Hf as [Hin Hk].
    apply bool_decide_eq_true in Hk. simpl in Hk. subst k.
    unfold order. apply list_elem_of_In, in_map_iff. exists (sym, v).
    split; [reflexivity|exact Hin].
  - destruct (inherited sym); discriminate.
Qed.

Lemma displayName_plain sym member :
  inherited sym = false → displayName sym ≠ Some (Builtin member).
Proof.
  unfold displayName. intros Hp. destruct (List.find _ _) as [[k v]|]; [discriminate|].
  rewrite Hp. discriminate.
Qed.

(** No key of [SYMBOL_MAP] names a member of [Object.prototype]. *)
Lemma order_plain sym : sym ∈ order → inherited sym = false ∧ sym ≠ "__proto__".
Proof.
  unfold order. simpl. intros H.
  repeat (apply elem_of_cons in H as [->|H]; [split; [reflexivity | discriminate]|]).
  apply elem_of_nil in H. contradiction.
Qed.

Lemma collect_step_good u t :
  inherited (s t) = false →
  proto u = None → NoDup (map fst (own u)) → keyed (own u) →
  let u' := collect_step u t in
  proto u' = None ∧ NoDup (map fst (own u')) ∧ keyed (own u')
  ∧ (∀ k, k ∈ map fst (own u) → k ∈ map fst (own u'))
  ∧ (s t ∈ order → s t ∈ map fst (own u')).
Proof.
  intros Hplain Hp Hnd Hk. cbn zeta. unfold collect_step.
  destruct (displayName (s t)) as [[label|member]|] eqn:Hd.
  - pose proof (displayName_order _ _ Hd) as Ho.
    destruct (order_plain _ Ho) as [_ Hne].
    destruct (displayName_known _ Ho) as (label' & Hd' & Hlabel).
    rewrite Hd in Hd'. injection Hd' as <-.
    cbn [of_shown truthy]. rewrite bool_decide_eq_false_2 by exact Hlabel. cbn [negb].
    unfold assign. rewrite bool_decide_eq_false_2 by exact Hne. cbn [own proto].
    split; [exact Hp|]. split; [apply record_set_NoDup, Hnd|].
    split; [apply record_set_keyed; [reflexivity | exact Ho | exact Hk]|].
    split; [intros k; apply record_set_keeps | intros _; apply record_set_has].
  - exfalso. exact (displayName_plain _ _ Hplain Hd).
  - repeat split; auto.
    intros Ho. destruct (displayName_known _ Ho) as (label & Hl & _). congruence.
Qed.

Lemma collect_good data u :
  plain_symbols data →
  proto u = None → NoDup (map fst (own u)) → keyed (own u) →
  let r := fold_left collect_step data u in
  proto r = None ∧ NoDup (map fst (own r)) ∧ keyed (own r)
  ∧ (∀ k, k ∈ map fst (own u) → k ∈ map fst (own r))
  ∧ (∀ t, t ∈ data → s t ∈ order → s t ∈ map fst (own r)).
Proof.
  intros Hplain. revert u.
  induction Hplain as [|t data Ht _ IH]; intros u Hp Hnd Hk; simpl.
  - repeat split; auto. intros t Ht. apply elem_of_nil in Ht. contradiction.
  - destruct (collect_step_good u t Ht Hp Hnd Hk) as (Hp' & Hnd' & Hk' & Hkeep & Hnew).
    destruct (IH _ Hp' Hnd' Hk') as (H0 & H1 & H2 & H3 & H4).
    repeat split; auto.
    intros t' [->|Ht']%elem_of_cons Ho; [apply H3, Hnew, Ho | apply H4; assumption].
Qed.

Lemma keyed_symbols r : keyed r → map symbol (map snd r) = map fst r.
Proof.
  induction 1 as [|[k v] r [Hv _] _ IH]; simpl; [reflexivity|]. simpl in Hv. congruence.
Qed.

Lemma record_get_symbol key r it :
  keyed r → record_get key r = Some it → symbol it = key.
Proof.
  intros Hk. unfold record_get.
  destruct (List.find _ _) as [[k v]|] eqn:Hf; [|discriminate].
  intros [= <-]. apply find_some in Hf as [Hin Hkey].
  apply bool_decide_eq_true in Hkey. simpl in Hkey. subst k.
  unfold keyed in Hk. rewrite Forall_forall in Hk.
  apply (Hk (key, v)). apply list_elem_of_In, Hin.
Qed.

(** *** Sorting *)

Lemma insert_Permutation x l : insert x l ≡ₚ x :: l.
Proof.
  induction l as [|y l IH]; simpl; [reflexivity|].
  destruct (_ <? 0)%Z; [reflexivity|]. rewrite IH. apply Permutation_swap.
Qed.

Lemma insert_sorted x l : StronglySorted by_rank l → StronglySorted by_rank (insert x l).
Proof.
  induction 1 as [|y l Hl IH Hy]; simpl; [repeat constructor|].
  destruct (Z.ltb_spec (indexOf (symbol x) - indexOf (symbol y)) 0) as [Hlt|Hge].
  - constructor; [constructor; assumption|].
    constructor; [unfold by_rank; lia|].
    eapply Forall_impl; [exact Hy|]. intros z Hz. unfold by_rank in *. lia.
  - constructor; [exact IH|].
    rewrite insert_Permutation. constructor; [unfold by_rank; lia | exact Hy].
Qed.

Lemma sortTickers_spec items :
  sortTickers items ≡ₚ items ∧ StronglySorted by_rank (sortTickers items).
Proof.
  unfold sortTickers.
  assert (H : ∀ acc, StronglySorted by_rank acc →
                     fold_left (λ sorted x, insert x sorted) items acc ≡ₚ items ++ acc
                     ∧ StronglySorted by_rank
                         (fold_left (λ sorted x, insert x sorted) items acc)).
  { induction items as [|x items IH]; intros acc Hacc; simpl; [split; [reflexivity|exact Hacc]|].
    destruct (IH (insert x acc) (insert_sorted x acc Hacc)) as [Hp Hs].
    split; [|exact Hs]. rewrite Hp, insert_Permutation. symmetry. apply Permutation_middle. }
  destruct (H [] (SSorted_nil _)) as [Hp Hs]. rewrite app_nil_r in Hp. split; assumption.
Qed.

(** *** Merging a message into the ticker *)

Lemma collect_spec data :
  plain_symbols data →
  proto (collect data) = None
  ∧ NoDup (map fst (own (collect data))) ∧ keyed (own (collect data))
  ∧ (∀ t, t ∈ data → s t ∈ order → s t ∈ map fst (own (collect data))).
Proof.
  intros Hplain.
  destruct (collect_good data (mkUpdates [] None) Hplain eq_refl
              (NoDup_nil_2 : NoDup (map fst [])) (Forall_nil_2 _))
    as (H0 & H1 & H2 & _ & H4).
  repeat split; assumption.
Qed.

Lemma nextState_symbols u prev :
  keyed u →
  map symbol (map (λ it, default it (record_get (symbol it) u)) prev) = map symbol prev.
Proof.
  intros Hk. induction prev as [|it prev IH]; simpl; [reflexivity|]. f_equal; [|exact IH].
  destruct (record_get (symbol it) u) as [it'|] eqn:Hg; [|reflexivity].
  simpl. eapply record_get_symbol; eassumption.
Qed.

Lemma fresh_symbols (vs prev : list TickerItem) :
  let extra := List.filter (λ v, negb (bool_decide (symbol v ∈ map symbol prev))) vs in
  sublist (map symbol extra) (map symbol vs)
  ∧ (∀ k, k ∈ map symbol extra → k ∉ map symbol prev)
  ∧ (∀ k, k ∈ map symbol vs → k ∉ map symbol prev → k ∈ map symbol extra).
Proof.
  cbn zeta. induction vs as [|v vs (IH1 & IH2 & IH3)]; simpl.
  - repeat split; [constructor| |]; intros k Hk; apply elem_of_nil in Hk; contradiction.
  - destruct (bool_decide (symbol v ∈ map symbol prev)) eqn:Hin; simpl.
    + apply bool_decide_eq_true in Hin. split; [apply sublist_cons, IH1|]. split; [exact IH2|].
      intros k [->|Hk]%elem_of_cons Hout; [contradiction | apply IH3; assumption].
    + apply bool_decide_eq_false in Hin. split; [apply sublist_skip, IH1|]. split.
      * intros k [->|Hk]%elem_of_cons; [exact Hin | apply IH2, Hk].
      * intros k [->|Hk]%elem_of_cons Hout; apply elem_of_cons;
          [left; reflexivity | right; apply IH3; assumption].
Qed.

Lemma Forall_sublist_known (l1 l2 : list string) :
  sublist l1 l2 → Forall (λ k, k ∈ order) l2 → Forall (λ k, k ∈ order) l1.
Proof.
  rewrite !Forall_forall. intros Hsub Hl2 x Hx.
  apply Hl2. eapply elem_of_sublist; [exact Hx | exact Hsub].
Qed.

Lemma known_symbols (items : list TickerItem) :
  Forall (λ it, symbol it ∈ order) items ↔ Forall (λ k, k ∈ order) (map symbol items).
Proof. rewrite Forall_map. reflexivity. Qed.

(** *** Items only

    As long as the record holds items of [SYMBOL_MAP] only and its
    prototype is in place, an array of such items stays one. *)

Lemma refresh_item u it :
  proto u = None → symbol it ∈ order →
  refresh u (Item it) = Item (default it (record_get (symbol it) (own u))).
Proof.
  intros Hp Ho. destruct (order_plain _ Ho) as [Hplain Hne].
  unfold refresh. cbn [symbol_of].
  change (default "undefined" (Some (symbol it))) with (symbol it). unfold read.
  destruct (record_get (symbol it) (own u)) as [it'|]; [reflexivity|].
  rewrite Hp. simpl. rewrite bool_decide_eq_false_2 by exact Hne. rewrite Hplain.
  reflexivity.
Qed.

Lemma symbols_of_items (prev : list TickerItem) k :
  Some k ∈ map symbol_of (map Item prev) ↔ k ∈ map symbol prev.
Proof.
  induction prev as [|it prev IH]; simpl.
  - split; intros H; apply elem_of_nil in H; contradiction.
  - rewrite !elem_of_cons, IH. split; intros [H|H]; auto; left; congruence.
Qed.

Lemma mergeTickers_items u (prev : list TickerItem) :
  proto u = None → Forall (λ it, symbol it ∈ order) prev →
  mergeTickers u (map Item prev)
  = map Item
      (if (length prev =? 0)%nat then sortTickers (map snd (own u))
       else map (λ it, default it (record_get (symbol it) (own u))) prev
            ++ List.filter (λ v, negb (bool_decide (symbol v ∈ map symbol prev)))
                           (map snd (own u))).
Proof.
  intros Hp Hprev. unfold mergeTickers, values. rewrite length_map.
  destruct (length prev =? 0)%nat; [reflexivity|].
  rewrite map_app. f_equal.
  - rewrite !map_map. apply map_ext_in. intros it Hit.
    rewrite Forall_forall in Hprev. apply refresh_item; [exact Hp|].
    apply Hprev, list_elem_of_In, Hit.
  - f_equal. apply filter_ext. intros v. f_equal.
    apply bool_decide_ext, symbols_of_items.
Qed.

(** X21.  When no symbol of a message names a member of Object.prototype,
    a ticker that shows items of SYMBOL_MAP symbols, each once, still does
    so after the message.  The first message fills it in the order of
    SYMBOL_MAP; every later message keeps the items shown in their places
    and adds new symbols at the end; and every SYMBOL_MAP symbol of a
    message is on show afterwards. *)
Theorem ticker_stays_well_formed data (prev : list TickerItem) :
  well_formed prev →
  plain_symbols data →
  ∃ next,
    onmessage data (map Item prev) = map Item next
    ∧ well_formed next
    ∧ (prev ≠ [] → map symbol prev `prefix_of` map symbol next)
    ∧ (prev = [] → StronglySorted by_rank next)
    ∧ (∀ t, t ∈ data → s t ∈ order → s t ∈ map symbol next).
Proof.
  intros [Hnd Hknown] Hplain. unfold onmessage.
  destruct (collect_spec data Hplain) as (Hproto & Hu & Hk & Hfed).
  rewrite (mergeTickers_items _ _ Hproto Hknown). eexists. split; [reflexivity|].
  pose proof (keyed_symbols _ Hk) as Hsym.
  assert (Hall : Forall (λ k, k ∈ order) (map fst (own (collect data)))).
  { rewrite Forall_map. eapply Forall_impl; [exact Hk|]. intros kv [_ H]. exact H. }
  destruct prev as [|p prev]; cbn [length Nat.eqb].
  - destruct (sortTickers_spec (map snd (own (collect data)))) as [Hp Hs].
    assert (Hps : map symbol (sortTickers (map snd (own (collect data))))
                  ≡ₚ map fst (own (collect data))).
    { rewrite <- Hsym. apply Permutation_map, Hp. }
    split; [split|split; [congruence|split; [intros _; exact Hs|]]].
    + rewrite Hps. exact Hu.
    + apply known_symbols. rewrite Hps. exact Hall.
    + intros t Ht Ho. rewrite Hps. apply Hfed; assumption.
  - destruct (fresh_symbols (map snd (own (collect data))) (p :: prev)) as (Hsub & Hnew & Hadd).
    cbn zeta in Hsub, Hnew, Hadd.
    rewrite map_app, (nextState_symbols _ _ Hk).
    split; [split|split; [intros _; eexists; reflexivity|split; [discriminate|]]].
    + rewrite map_app, (nextState_symbols _ _ Hk).
      apply NoDup_app. split; [exact Hnd|]. split.
      * intros k Hk1 Hk2. exact (Hnew k Hk2 Hk1).
      * eapply sublist_NoDup; [|exact Hsub]. rewrite Hsym. exact Hu.
    + apply known_symbols. rewrite map_app, (nextState_symbols _ _ Hk).
      apply Forall_app. split; [apply known_symbols, Hknown|].
      eapply Forall_sublist_known; [exact Hsub|]. rewrite Hsym. exact Hall.
    + intros t Ht Ho. apply elem_of_app.
      destruct (decide (s t ∈ map symbol (p :: prev))) as [Hin|Hout]; [left; exact Hin|].
      right. apply Hadd; [|exact Hout]. rewrite Hsym. apply Hfed; assumption.
Qed.

Lemma ticker_stays_well_formed_witness :
  well_formed []
  ∧ plain_symbols sample_feed
  ∧ ∃ next, onmessage sample_feed [] = map Item next
            ∧ map symbol next = ["BTCUSDT"; "ETHUSDT"]
            ∧ well_formed next.
Proof.
  assert (H : well_formed []) by (split; constructor).
  assert (Hp : plain_symbols sample_feed) by (repeat constructor).
  split; [exact H|]. split; [exact Hp|].
  destruct (ticker_stays_well_formed sample_feed [] H Hp) as (next & Hnext & Hwf & _).
  exists next. split; [exact Hnext|]. split; [|exact Hwf].
  apply (f_equal (omap symbol_of)) in Hnext.
  assert (Hs : ∀ l, omap symbol_of (map Item l) = map symbol l).
  { induction l as [|x l IH]; simpl; [reflexivity | f_equal; exact IH]. }
  rewrite Hs in Hnext. rewrite <- Hnext. reflexivity.
Defined.

(** With a member of Object.prototype among the symbols things are
    otherwise: [SYMBOL_MAP["constructor"]] is a function, so an item is made
    and shown for it, ahead of the rest since [indexOf] gives −1; at the
    next message that does not carry the symbol, [updates["constructor"]]
    is that function again, and it takes the item's place in the array.
    An item made for "__proto__" replaces the prototype of [updates] and
    is not shown. *)
Example inherited_symbol_is_shown :
  let first := onmessage odd_feed [] in
  let second := onmessage [mkTicker "BTCUSDT" 60010 61000] first in
  map symbol_of first = [Some "constructor"; Some "BTCUSDT"]
  ∧ map symbol_of second = [None; Some "BTCUSDT"]
  ∧ head second = Some (Inherited "constructor")
  ∧ onmessage [mkTicker "__proto__" 1 1] [] = [].
Proof. vm_compute. repeat split. Qed.

End MarketTickerProofs.
